(** * org-jira-timeline: interval matching, issue resolution and
      submission of org-mode clock entries to Jira

    A shallow embedding of [org-jira-timeline.py] and the properties of its
    reconciliation engine.

    Conventions of the embedding.
    - A naive [datetime] is an integer number of seconds on one fixed time
      axis; a [timedelta] is an integer number of seconds.  The clock lines
      of an org file carry whole minutes and the requested windows start at
      midnight, so every timestamp the program handles is a whole second.
    - A Python value that is either [None] or a [str] is an [option string];
      its truth value is [truthy].
    - The Jira server is an explicit state ([Jira]) threaded through the
      calls of the client; a call that the server rejects raises, which is
      the [Raised] outcome. *)

From Stdlib Require Import ZArith List Bool Ascii String Lia.
From stdpp Require Import base option list gmap strings.

Local Open Scope string_scope.
Local Open Scope Z_scope.

(** ** Python values *)

(** [bool(v)] for a value that is [None] or a string. *)
Definition truthy (v : option string) : bool :=
  match v with
  | Some s => negb (String.eqb s "")
  | None => false
  end.

(** [a or b]; the second operand is only looked at when the first is falsy. *)
Definition py_or (a b : option string) : option string :=
  if truthy a then a else b.

(** [timedelta.seconds]: the seconds field of the normalised
    (days, seconds) pair, which lies in [0, 86400). *)
Definition td_seconds (d : Z) : Z := d mod 86400.

(** [datetime.date()], as a day number. *)
Definition date (t : Z) : Z := t / 86400.

(** ** Data model *)

(** [Interval = namedtuple('Interval', ['start', 'end'])] *)
Record Interval := mkInterval { start : Z; end_ : Z }.

(** A [CLOCK:] entry of the parser: the three attributes the program reads. *)
Record ClockEntry := mkClock {
  clock_start : Z;
  clock_end : Z;
  clock_duration : Z
}.

(** The parser computes [duration] as [end - start]. *)
Definition clock_wf (c : ClockEntry) : Prop :=
  clock_duration c = clock_end c - clock_start c.

(** A heading node of the outline.  [tags] is the node's tag collection in
    the order its iteration yields them.  [parent] is [None] when
    [node.parent] is [None] or an object without a [heading] attribute:
    [find_issue_in_parent] does the same in both cases. *)
#[local] Unset Elimination Schemes.
Inductive OutlineNode := mkNode {
  heading : string;
  tags : list string;
  properties : gmap string string;
  parent : option OutlineNode;
  clock : list ClockEntry
}.
#[local] Set Elimination Schemes.

(** A compiled pattern is represented by what [re.findall] returns with it
    on a heading. *)
Definition Pattern := string -> list string.

(** The part of [settings] the engine reads. *)
Record Settings := mkSettings {
  project_regexps : list Pattern;
  settings_tags : gmap string string;
  org_files : list string
}.

(** The parsed command line. *)
Record Args := mkArgs {
  intervals : list Interval;
  query_jira : bool;
  args_send_data_to_jira : bool
}.

(** ** Interval matcher *)

(** [clock_start >= ivl.start and clock_start < ivl.end] *)
Definition contains (ivl : Interval) (t : Z) : bool :=
  (start ivl <=? t) && (t <? end_ ivl).

Fixpoint match_lookup_intervals (ivls : list Interval) (cs ce : Z)
  : option Interval :=
  match ivls with
  | [] => None
  | ivl :: rest =>
      if (cs >=? start ivl) && (cs <? end_ ivl) then
        let e := if ce <? end_ ivl then ce else end_ ivl in
        Some (mkInterval cs e)
      else match_lookup_intervals rest cs ce
  end.

(** The matcher in the words of its contract: the first requested interval
    that contains the clock start, clipped on the right. *)
Definition first_containing (ivls : list Interval) (t : Z) : option Interval :=
  List.find (fun ivl => contains ivl t) ivls.

Definition matcher_spec (ivls : list Interval) (cs ce : Z) : option Interval :=
  match first_containing ivls cs with
  | Some ivl => Some (mkInterval cs (Z.min ce (end_ ivl)))
  | None => None
  end.

(** ** Issue resolver *)

Fixpoint first_findall (res : list Pattern) (h : string) : option string :=
  match res with
  | [] => None
  | check_re :: rest =>
      match check_re h with
      | m :: _ => Some m
      | [] => first_findall rest h
      end
  end.

(** The first match of the first pattern that matches the heading. *)
Definition find_issue_in_heading (node : OutlineNode) (settings : Settings)
  : option string :=
  first_findall (project_regexps settings) (heading node).

(** [node.properties.get('jira-task')]; every node of the embedding has a
    property map, so the [hasattr] guard is passed. *)
Definition find_issue_in_property (node : OutlineNode) (settings : Settings)
  : option string :=
  properties node !! "jira-task".

Fixpoint first_known_tag (ts : list string) (known : gmap string string)
  : option string :=
  match ts with
  | [] => None
  | tag :: rest =>
      match known !! tag with
      | Some issue => Some issue
      | None => first_known_tag rest known
      end
  end.

(** The issue configured for the first tag of the node that is a key of
    [settings['tags']]. *)
Definition find_issue_by_tag (node : OutlineNode) (settings : Settings)
  : option string :=
  first_known_tag (tags node) (settings_tags settings).

(** The chain of [or]s; the call on the parent is [find_issue_in_parent],
    written in place so that the recursion is structural. *)
Fixpoint find_jira_issue (node : OutlineNode) (settings : Settings)
  : option string :=
  py_or (find_issue_in_property node settings)
    (py_or (find_issue_in_heading node settings)
       (py_or (find_issue_by_tag node settings)
          (match parent node with
           | Some p => find_jira_issue p settings
           | None => None
           end))).

Definition find_issue_in_parent (node : OutlineNode) (settings : Settings)
  : option string :=
  match parent node with
  | Some p => find_jira_issue p settings
  | None => None
  end.

(** The same evaluation, counting the activations of [find_jira_issue]:
    an [or] evaluates its right operand only when the left one is falsy. *)
Fixpoint find_jira_issue_counted (node : OutlineNode) (settings : Settings)
  : option string * nat :=
  let p := find_issue_in_property node settings in
  if truthy p then (p, 1%nat) else
  let h := find_issue_in_heading node settings in
  if truthy h then (h, 1%nat) else
  let t := find_issue_by_tag node settings in
  if truthy t then (t, 1%nat) else
  match parent node with
  | Some q =>
      let '(r, n) := find_jira_issue_counted q settings in (r, S n)
  | None => (None, 1%nat)
  end.

(** The resolver in the words of its contract: the first non-empty result
    of an ordered list of strategies, or no match. *)
Fixpoint first_nonempty (results : list (option string)) : option string :=
  match results with
  | [] => None
  | r :: rest => if truthy r then r else first_nonempty rest
  end.

(** What a node yields by itself, without its ancestors. *)
Definition own_issue (node : OutlineNode) (settings : Settings)
  : option string :=
  first_nonempty [find_issue_in_property node settings;
                  find_issue_in_heading node settings;
                  find_issue_by_tag node settings].

(** A parent chain of [n] links above [node] on which only the topmost node
    resolves by itself, through its [jira-task] property [v]. *)
Inductive property_at_root (settings : Settings) (v : string)
  : OutlineNode -> nat -> Prop :=
| at_root node :
    parent node = None ->
    properties node !! "jira-task" = Some v ->
    property_at_root settings v node 0
| below node p n :
    parent node = Some p ->
    own_issue node settings = None ->
    property_at_root settings v p n ->
    property_at_root settings v node (S n).

(** The number of ancestors of a node. *)
Fixpoint depth (node : OutlineNode) : nat :=
  match parent node with
  | Some p => S (depth p)
  | None => 0
  end.

(** *** The patterns built from the project keys

    [re.compile(r'\s*({project}-\d+)\s*')] for a project key of literal
    characters without white space: [findall] yields the occurrences of the
    key followed by a hyphen and a maximal run of decimal digits, left to
    right and without overlap. *)

Definition is_digit (c : ascii) : bool :=
  (48 <=? Z.of_nat (nat_of_ascii c)) && (Z.of_nat (nat_of_ascii c) <=? 57).

Fixpoint take_digits (s : string) : string :=
  match s with
  | String c r => if is_digit c then String c (take_digits r) else ""
  | EmptyString => ""
  end.

Fixpoint strip_prefix (p s : string) : option string :=
  match p, s with
  | EmptyString, _ => Some s
  | String a p', String b s' =>
      if Ascii.eqb a b then strip_prefix p' s' else None
  | String _ _, EmptyString => None
  end.

Definition match_here (project s : string) : option string :=
  match strip_prefix (project ++ "-") s with
  | Some r =>
      let ds := take_digits r in
      if String.eqb ds "" then None else Some (project ++ "-" ++ ds)
  | None => None
  end.

Fixpoint findall_from (project : string) (skip : nat) (s : string)
  : list string :=
  match s with
  | EmptyString => []
  | String _ r =>
      match skip with
      | S k => findall_from project k r
      | O =>
          match match_here project s with
          | Some m => m :: findall_from project (String.length m - 1)%nat r
          | None => findall_from project 0 r
          end
      end
  end.

Definition project_regexp (project : string) : Pattern :=
  findall_from project 0.

(** ** Computations with a state that may raise *)

Inductive Result (A : Type) : Type :=
| Ok (a : A)
| Raised.
Arguments Ok {A} a.
Arguments Raised {A}.

(** A computation over a state [S]: the outcome and the state it leaves.
    The state left by a computation that raised is the state at the raise. *)
Definition M (S A : Type) : Type := S -> Result A * S.

#[export] Instance M_ret {S} : MRet (M S) :=
  fun A (a : A) (s : S) => (Ok a, s).

#[export] Instance M_bind {S} : MBind (M S) :=
  fun A B (k : A -> M S B) (c : M S A) (s : S) =>
    match c s with
    | (Ok a, s') => k a s'
    | (Raised, s') => (Raised, s')
    end.

(** [for x in l: body(x)] *)
Fixpoint for_each {S A} (body : A -> M S unit) (l : list A) : M S unit :=
  match l with
  | [] => mret tt
  | x :: rest => body x ;; for_each body rest
  end.

(** ** The Jira server and its client *)

(** A work-log as the server keeps it; [started] is an instant on the time
    axis of the naive timestamps read as UTC, which is how the client sends
    a naive [started] and how the gate compares ([pytz.utc.localize]). *)
Record Worklog := mkWorklog {
  started : Z;
  timeSpentSeconds : Z;
  comment : string
}.

Inductive Call :=
| CallIssue (key : string)
| CallWorklogs (key : string)
| CallAddWorklog (key : string) (w : Worklog).

(** The issues the server knows, each with its work-logs in order of
    creation, and the requests received so far. *)
Record Jira := mkJira {
  worklog_store : gmap string (list Worklog);
  calls : list Call
}.

Definition received (c : Call) (j : Jira) : Jira :=
  mkJira (worklog_store j) (calls j ++ [c])%list.

Module jira.

(** [jira.issue(key)]: raises for a key the server does not know. *)
Definition issue (key : string) : M Jira string :=
  fun j =>
    match worklog_store j !! key with
    | Some _ => (Ok key, received (CallIssue key) j)
    | None => (Raised, received (CallIssue key) j)
    end.

(** [jira.worklogs(issue)] *)
Definition worklogs (key : string) : M Jira (list Worklog) :=
  fun j =>
    (Ok (default [] (worklog_store j !! key)), received (CallWorklogs key) j).

(** [jira.add_worklog(issue=key, started=..., timeSpentSeconds=...,
    comment=...)] *)
Definition add_worklog (key : string) (w : Worklog) : M Jira unit :=
  fun j =>
    match worklog_store j !! key with
    | Some ws =>
        (Ok tt, mkJira (<[key := (ws ++ [w])%list]> (worklog_store j))
                       (calls j ++ [CallAddWorklog key w])%list)
    | None => (Raised, received (CallAddWorklog key w) j)
    end.

End jira.

(** The create-worklog requests among the requests received. *)
Fixpoint writes (cs : list Call) : list (string * Worklog) :=
  match cs with
  | [] => []
  | CallAddWorklog key w :: rest => (key, w) :: writes rest
  | _ :: rest => writes rest
  end.

(** ** Submission gate *)

(** The loop over the existing work-logs: does one start at [t]? *)
Definition already_submitted (ws : list Worklog) (t : Z) : bool :=
  existsb (fun worklog => started worklog =? t) ws.

Definition send_interval_to_jira (jira_issue : string) (interval : Interval)
    (description : string) (query_jira send_data : bool) : M Jira bool :=
  '(issue, found) ←
    (if query_jira then
       issue ← jira.issue jira_issue;
       ws ← jira.worklogs issue;
       mret (Some issue, already_submitted ws (start interval))
     else mret (None, false));
  if (found : bool) then mret false
  else if send_data
          && negb (td_seconds (end_ interval - start interval) =? 0) then
    _ ← match issue with
        | Some i => mret i
        | None => jira.issue jira_issue
        end;
    if negb (td_seconds (end_ interval - start interval) =? 0) then
      jira.add_worklog jira_issue
        (mkWorklog (start interval)
                   (td_seconds (end_ interval - start interval))
                   description);;
      mret true
    else mret false
  else mret false.

(** ** Reconciliation driver *)

(** One value of the [per_day] dictionary. *)
Record DayStats := mkDay {
  day_invoice_time : Z;
  day_skipped_time : Z;
  day_cumulative_time : Z;
  day_added_time : Z
}.

Definition no_time : DayStats := mkDay 0 0 0 0.

(** The local variables of [send_data_to_jira]; [per_task] is keyed by the
    resolver's result, [None] included. *)
Record Totals := mkTotals {
  invoice_time : Z;
  skipped_time : Z;
  cumulative_time : Z;
  per_day : gmap Z DayStats;
  per_task : gmap (option string) Z
}.

Definition no_totals : Totals := mkTotals 0 0 0 ∅ ∅.

(** Reading a [defaultdict]. *)
Definition day_stats (t : Totals) (day : Z) : DayStats :=
  default no_time (per_day t !! day).

Definition task_time (t : Totals) (task : option string) : Z :=
  default 0 (per_task t !! task).

(** [per_day[day][field] += ...] *)
Definition update_day (f : DayStats -> DayStats) (day : Z) (t : Totals)
  : Totals :=
  mkTotals (invoice_time t) (skipped_time t) (cumulative_time t)
           (<[day := f (day_stats t day)]> (per_day t)) (per_task t).

Definition add_day_invoice (d : Z) (s : DayStats) : DayStats :=
  mkDay (day_invoice_time s + d) (day_skipped_time s)
        (day_cumulative_time s) (day_added_time s).
Definition add_day_skipped (d : Z) (s : DayStats) : DayStats :=
  mkDay (day_invoice_time s) (day_skipped_time s + d)
        (day_cumulative_time s) (day_added_time s).
Definition add_day_cumulative (d : Z) (s : DayStats) : DayStats :=
  mkDay (day_invoice_time s) (day_skipped_time s)
        (day_cumulative_time s + d) (day_added_time s).
Definition add_day_added (d : Z) (s : DayStats) : DayStats :=
  mkDay (day_invoice_time s) (day_skipped_time s)
        (day_cumulative_time s) (day_added_time s + d).

Definition add_invoice_time (d : Z) (t : Totals) : Totals :=
  mkTotals (invoice_time t + d) (skipped_time t) (cumulative_time t)
           (per_day t) (per_task t).
Definition add_skipped_time (d : Z) (t : Totals) : Totals :=
  mkTotals (invoice_time t) (skipped_time t + d) (cumulative_time t)
           (per_day t) (per_task t).
Definition add_cumulative_time (d : Z) (t : Totals) : Totals :=
  mkTotals (invoice_time t) (skipped_time t) (cumulative_time t + d)
           (per_day t) (per_task t).
Definition add_task_time (task : option string) (d : Z) (t : Totals)
  : Totals :=
  mkTotals (invoice_time t) (skipped_time t) (cumulative_time t)
           (per_day t) (<[task := task_time t task + d]> (per_task t)).

(** The state of a run: the driver's local totals and the server. *)
Record Run := mkRun {
  totals : Totals;
  server : Jira
}.

Definition update (f : Totals -> Totals) : M Run unit :=
  fun r => (Ok tt, mkRun (f (totals r)) (server r)).

Definition on_server {A} (c : M Jira A) : M Run A :=
  fun r => let '(o, j) := c (server r) in (o, mkRun (totals r) j).

(** The body of [for clocked in node.clock]. *)
Definition clock_body (args : Args) (settings : Settings)
    (node : OutlineNode) (skip : bool) (clocked : ClockEntry) : M Run unit :=
  match match_lookup_intervals (intervals args)
          (clock_start clocked) (clock_end clocked) with
  | Some matched_interval =>
      let day := date (clock_start clocked) in
      (if skip then
         update (add_skipped_time (clock_duration clocked));;
         update (update_day (add_day_skipped (clock_duration clocked)) day)
       else
         update (add_invoice_time (clock_duration clocked));;
         update (update_day (add_day_invoice (clock_duration clocked)) day));;
      update (update_day (add_day_cumulative (clock_duration clocked)) day);;
      update (add_cumulative_time (clock_duration clocked));;
      let jira_issue := find_jira_issue node settings in
      update (add_task_time jira_issue (clock_duration clocked));;
      if truthy jira_issue && negb skip then
        added ← on_server
          (send_interval_to_jira (default "" jira_issue) matched_interval
             (heading node) (query_jira args) (args_send_data_to_jira args));
        if (added : bool) then
          update (update_day (add_day_added (clock_duration clocked)) day)
        else mret tt
      else mret tt
  | None => mret tt
  end.

(** The body of [for node in root[1:]]. *)
Definition node_body (args : Args) (settings : Settings)
    (node : OutlineNode) : M Run unit :=
  let skip := truthy (properties node !! "jira-skip") in
  match clock node with
  | [] => mret tt
  | _ => for_each (clock_body args settings node skip) (clock node)
  end.

(** The two outer loops; [load path] stands for
    [orgparse.load(os.path.expanduser(path))[1:]], the nodes of the file
    without its root, in document order. *)
Definition send_data_loop (load : string -> list OutlineNode) (args : Args)
    (settings : Settings) : M Run unit :=
  for_each (fun path => for_each (node_body args settings) (load path))
           (org_files settings).

(** A run of the driver against the server [j]: the totals start at zero. *)
Definition send_data_to_jira (load : string -> list OutlineNode)
    (args : Args) (settings : Settings) (j : Jira) : Result unit * Run :=
  send_data_loop load args settings (mkRun no_totals j).

(** The total recorded time of the clock entries that match, and of those
    among them that start on [day]. *)
Definition matches (ivls : list Interval) (c : ClockEntry) : bool :=
  match match_lookup_intervals ivls (clock_start c) (clock_end c) with
  | Some _ => true
  | None => false
  end.

Fixpoint matched_time (ivls : list Interval) (cs : list ClockEntry) : Z :=
  match cs with
  | [] => 0
  | c :: rest =>
      (if matches ivls c then clock_duration c else 0) + matched_time ivls rest
  end.

Fixpoint matched_time_on (day : Z) (ivls : list Interval)
    (cs : list ClockEntry) : Z :=
  match cs with
  | [] => 0
  | c :: rest =>
      (if matches ivls c && (date (clock_start c) =? day)
       then clock_duration c else 0) + matched_time_on day ivls rest
  end.

(** The totals after the unconditional updates of the loop body for a
    matched entry: the skipped or invoiced time, the cumulative time and the
    time of the task, in the order of the source. *)
Definition entry_totals (skip : bool) (jira_issue : option string)
    (clocked : ClockEntry) (t : Totals) : Totals :=
  let d := clock_duration clocked in
  let day := date (clock_start clocked) in
  let t1 :=
    if skip then update_day (add_day_skipped d) day (add_skipped_time d t)
    else update_day (add_day_invoice d) day (add_invoice_time d t) in
  add_task_time jira_issue d
    (add_cumulative_time d (update_day (add_day_cumulative d) day t1)).

(** The outcome of the gate, case by case. *)
Definition gate_outcome (jira_issue : string) (interval : Interval)
    (description : string) (query_jira send_data : bool) (j : Jira)
  : Result bool * Jira :=
  let secs := td_seconds (end_ interval - start interval) in
  let w := mkWorklog (start interval) secs description in
  if query_jira then
    match worklog_store j !! jira_issue with
    | None => (Raised, received (CallIssue jira_issue) j)
    | Some ws =>
        let j1 := received (CallWorklogs jira_issue)
                    (received (CallIssue jira_issue) j) in
        if already_submitted ws (start interval) then (Ok false, j1)
        else if send_data && negb (secs =? 0) then
          (Ok true,
           mkJira (<[jira_issue := (ws ++ [w])%list]> (worklog_store j))
                  (calls j1 ++ [CallAddWorklog jira_issue w])%list)
        else (Ok false, j1)
    end
  else if send_data && negb (secs =? 0) then
    match worklog_store j !! jira_issue with
    | None => (Raised, received (CallIssue jira_issue) j)
    | Some ws =>
        (Ok true,
         mkJira (<[jira_issue := (ws ++ [w])%list]> (worklog_store j))
                (calls j ++ [CallIssue jira_issue;
                             CallAddWorklog jira_issue w])%list)
    end
  else (Ok false, j).

(** ** Server states seen by successive runs *)

(** [j'] knows the issues of [j] and no other, and keeps every work-log
    that [j] holds. *)
Definition extends (j j' : Jira) : Prop :=
  forall key,
    match worklog_store j !! key with
    | Some ws =>
        exists ws', worklog_store j' !! key = Some ws'
                    /\ forall w, In w ws -> In w ws'
    | None => worklog_store j' !! key = None
    end.

(** A computation that writes nothing when started on the server [j]. *)
Definition quiet {S A} (server_of : S -> Jira) (c : M S A) (s : S) : Prop :=
  worklog_store (server_of (snd (c s))) = worklog_store (server_of s)
  /\ writes (calls (server_of (snd (c s)))) = writes (calls (server_of s)).

(** A computation that only adds to the server and that, started again on
    any server that extends the one it left, writes nothing and raises if
    it raised the first time. *)
Definition settled {S A} (server_of : S -> Jira) (c : M S A) : Prop :=
  (forall s, extends (server_of s) (server_of (snd (c s))))
  /\ (forall s s',
        extends (server_of (snd (c s))) (server_of s') ->
        quiet server_of c s'
        /\ (fst (c s) = Raised -> fst (c s') = Raised)).

(** ** Sample data

    A small outline used to run the definitions: a top-level heading with a
    [jira-task] property, a child without any marker, and below it a leaf;
    and a heading that names an issue, with and without the skip flag.
    Timestamps count seconds from 2024-01-01T00:00. *)

Definition sample_settings : Settings :=
  mkSettings [project_regexp "PROJ"] {[ "ops" := "OPS-3" ]} ["work.org"].

Definition sample_top : OutlineNode :=
  mkNode "Top" [] {[ "jira-task" := "PROJ-9" ]} None [].

Definition sample_middle : OutlineNode :=
  mkNode "middle" ["x"] ∅ (Some sample_top) [].

Definition sample_leaf : OutlineNode :=
  mkNode "leaf" [] ∅ (Some sample_middle) [].

Definition sample_override : OutlineNode :=
  mkNode "PROJ-42 review" ["ops"] {[ "jira-task" := "PROJ-7" ]}
         (Some sample_top) [].

(** The example of the specification: the window 2024-01-01..2024-01-03 and
    a clock entry from 10:00 to 13:00 on 2024-01-02 under the heading
    "PROJ-42 review"; a server that knows PROJ-42, without work-logs and with
    the work-log of that entry. *)

Definition sample_window : Interval := mkInterval 0 172800.

Definition sample_clock : ClockEntry := mkClock 122400 133200 10800.

Definition sample_review : OutlineNode :=
  mkNode "PROJ-42 review" [] ∅ None [sample_clock].

Definition sample_review_skipped : OutlineNode :=
  mkNode "PROJ-42 review" [] {[ "jira-skip" := "t" ]} None [sample_clock].

Definition sample_args : Args := mkArgs [sample_window] true true.

Definition sample_worklog : Worklog :=
  mkWorklog 122400 10800 "PROJ-42 review".

Definition fresh_server : Jira := mkJira {[ "PROJ-42" := [] ]} [].

Definition synced_server : Jira :=
  mkJira {[ "PROJ-42" := [sample_worklog] ]} [].

(** A window that ends at 12:00 on 2024-01-02, inside the sample entry. *)
Definition short_args : Args := mkArgs [mkInterval 0 129600] true true.

(** ** Command line: the requested windows

    A Python [str] is a string of its code points; the strings of the
    embedding have code points below 256. *)

(** [v[i:j]] for [0 <= i <= j]: the slice stops at the end of the string. *)
Definition slice (v : string) (i j : nat) : string :=
  String.substring i (j - i) v.

(** The white space [int] accepts around a number. *)
Definition is_int_space (c : ascii) : bool :=
  let n := Z.of_nat (nat_of_ascii c) in
  ((9 <=? n) && (n <=? 13)) || (n =? 32) || (n =? 133) || (n =? 160).

Definition digit_value (c : ascii) : option Z :=
  if is_digit c then Some (Z.of_nat (nat_of_ascii c) - 48) else None.

Fixpoint skip_int_space (s : string) : string :=
  match s with
  | String c r => if is_int_space c then skip_int_space r else s
  | EmptyString => s
  end.

Fixpoint all_int_space (s : string) : bool :=
  match s with
  | String c r => is_int_space c && all_int_space r
  | EmptyString => true
  end.

(** The rest of a decimal literal after a digit: digits, single underscores
    between digits, and white space up to the end. *)
Fixpoint int_digits (acc : Z) (s : string) : option Z :=
  match s with
  | EmptyString => Some acc
  | String c r =>
      match digit_value c with
      | Some k => int_digits (10 * acc + k) r
      | None =>
          if Ascii.eqb c "_" then
            match r with
            | String c' r' =>
                match digit_value c' with
                | Some k => int_digits (10 * acc + k) r'
                | None => None
                end
            | EmptyString => None
            end
          else if all_int_space s then Some acc else None
      end
  end.

(** [int(s)] for a string; [None] stands for [ValueError].  (The limit on
    the number of digits of recent interpreters is not modelled; the parser
    below passes slices of at most four characters.) *)
Definition py_int (s : string) : option Z :=
  let s1 := skip_int_space s in
  let '(negative, s2) :=
    match s1 with
    | String c r =>
        if Ascii.eqb c "+" then (false, r)
        else if Ascii.eqb c "-" then (true, r)
        else (false, s1)
    | EmptyString => (false, s1)
    end in
  match s2 with
  | String c r =>
      match digit_value c with
      | Some k =>
          match int_digits k r with
          | Some n => Some (if negative then - n else n)
          | None => None
          end
      | None => None
      end
  | EmptyString => None
  end.

(** The calendar of [datetime]: proleptic Gregorian, years 1 to 9999. *)
Definition is_leap (year : Z) : bool :=
  (year mod 4 =? 0) && (negb (year mod 100 =? 0) || (year mod 400 =? 0)).

Definition days_in_month (year month : Z) : Z :=
  if month =? 2 then (if is_leap year then 29 else 28)
  else if (month =? 4) || (month =? 6) || (month =? 9) || (month =? 11)
  then 30 else 31.

Definition days_before_month (year month : Z) : Z :=
  nth (Z.to_nat month) [0; 0; 31; 59; 90; 120; 151; 181; 212; 243; 273;
                        304; 334] 0
  + (if (2 <? month) && is_leap year then 1 else 0).

Definition days_before_year (year : Z) : Z :=
  let y := year - 1 in y * 365 + y / 4 - y / 100 + y / 400.

(** [date.toordinal()]: 1 for 0001-01-01. *)
Definition ymd2ord (year month day : Z) : Z :=
  days_before_year year + days_before_month year month + day.

Definition valid_date (year month day : Z) : bool :=
  (1 <=? year) && (year <=? 9999) && (1 <=? month) && (month <=? 12)
  && (1 <=? day) && (day <=? days_in_month year month).

(** [datetime(year=..., month=..., day=...)] on the time axis of the
    embedding, whose origin is 2024-01-01T00:00 (ordinal 738886); [None]
    stands for the [ValueError] of a date that does not exist. *)
Definition datetime (year month day : Z) : option Z :=
  if valid_date year month day
  then Some ((ymd2ord year month day - 738886) * 86400)
  else None.

(** One element of the list comprehension of [parseIntervals.__call__]. *)
Definition parse_interval (v : string) : option Interval :=
  year1 ← py_int (slice v 0 4);
  month1 ← py_int (slice v 5 7);
  day1 ← py_int (slice v 8 10);
  first ← datetime year1 month1 day1;
  year2 ← py_int (slice v 12 16);
  month2 ← py_int (slice v 17 19);
  day2 ← py_int (slice v 20 22);
  second ← datetime year2 month2 day2;
  Some (mkInterval first second).

Fixpoint parse_intervals (values : list string) : option (list Interval) :=
  match values with
  | [] => Some []
  | v :: rest =>
      match parse_interval v with
      | Some ivl =>
          match parse_intervals rest with
          | Some ivls => Some (ivl :: ivls)
          | None => None
          end
      | None => None
      end
  end.

(** [parseIntervals.__call__]: the parsed list becomes [args.intervals];
    an exception leaves no result. *)
Definition parseIntervals (args : Args) (values : list string)
  : option Args :=
  match parse_intervals values with
  | Some ivls =>
      Some (mkArgs ivls (query_jira args) (args_send_data_to_jira args))
  | None => None
  end.

(** The documented form of a token, YYYY-MM-DD..YYYY-MM-DD, with
    zero-padded decimal fields. *)
Definition digit_char (n : Z) : ascii :=
  ascii_of_nat (Z.to_nat (48 + n mod 10)).

Definition two_digits (n : Z) : string :=
  String (digit_char (n / 10)) (String (digit_char n) "").

Definition four_digits (n : Z) : string :=
  String (digit_char (n / 1000))
    (String (digit_char (n / 100))
       (String (digit_char (n / 10)) (String (digit_char n) ""))).

Definition date_text (year month day : Z) : string :=
  four_digits year ++ "-" ++ two_digits month ++ "-" ++ two_digits day.

Definition token (y1 m1 d1 y2 m2 d2 : Z) : string :=
  date_text y1 m1 d1 ++ ".." ++ date_text y2 m2 d2.

(** Calendar order of two dates. *)
Definition date_before (y1 m1 d1 y2 m2 d2 : Z) : Prop :=
  y1 < y2 \/ (y1 = y2 /\ (m1 < m2 \/ (m1 = m2 /\ d1 < d2))).

(** ** More vocabulary for the properties *)

(** Windows of which no two different ones contain a common instant. *)
Definition disjoint_windows (ws : list Interval) : Prop :=
  forall w1 w2 t,
    In w1 ws -> In w2 ws ->
    contains w1 t = true -> contains w2 t = true -> w1 = w2.

(** The server holds a work-log of [key] that starts at [t]. *)
Definition has_worklog (j : Jira) (key : string) (t : Z) : Prop :=
  exists ws w,
    worklog_store j !! key = Some ws /\ In w ws /\ started w = t.

(** A project key of letters, digits and underscores: in the pattern built
    from it every character stands for itself. *)
Definition is_word_char (c : ascii) : bool :=
  let n := Z.of_nat (nat_of_ascii c) in
  ((48 <=? n) && (n <=? 57)) || ((65 <=? n) && (n <=? 90))
  || ((97 <=? n) && (n <=? 122)) || (n =? 95).

Fixpoint plain_key (key : string) : bool :=
  match key with
  | String c r => is_word_char c && plain_key r
  | EmptyString => true
  end.

Fixpoint all_digits (s : string) : bool :=
  match s with
  | String c r => is_digit c && all_digits r
  | EmptyString => true
  end.

(** Totals in which the cumulative time is the invoiced plus the skipped
    time, overall and day by day. *)
Definition balanced (t : Totals) : Prop :=
  cumulative_time t = invoice_time t + skipped_time t
  /\ forall day,
      day_cumulative_time (day_stats t day)
      = day_invoice_time (day_stats t day)
        + day_skipped_time (day_stats t day).

(** Totals without a negative counter, in which the added time of a day is
    part of its invoiced time. *)
Definition bounded (t : Totals) : Prop :=
  0 <= invoice_time t /\ 0 <= skipped_time t /\ 0 <= cumulative_time t
  /\ (forall task, 0 <= task_time t task)
  /\ forall day,
      0 <= day_added_time (day_stats t day)
        <= day_invoice_time (day_stats t day)
      /\ 0 <= day_skipped_time (day_stats t day)
      /\ 0 <= day_cumulative_time (day_stats t day).

(** Totals that agree on everything but the added time. *)
Definition same_accounts (t t' : Totals) : Prop :=
  invoice_time t = invoice_time t'
  /\ skipped_time t = skipped_time t'
  /\ cumulative_time t = cumulative_time t'
  /\ per_task t = per_task t'
  /\ forall day,
      day_invoice_time (day_stats t day)
      = day_invoice_time (day_stats t' day)
      /\ day_skipped_time (day_stats t day)
         = day_skipped_time (day_stats t' day)
      /\ day_cumulative_time (day_stats t day)
         = day_cumulative_time (day_stats t' day).

(** A server on which no issue has two work-logs with the same start. *)
Definition distinct_starts (j : Jira) : Prop :=
  forall key ws,
    worklog_store j !! key = Some ws -> NoDup (map started ws).

(** Totals that agree on the invoiced, skipped and cumulative times,
    overall and day by day. *)
Definition same_times (t t' : Totals) : Prop :=
  invoice_time t = invoice_time t'
  /\ skipped_time t = skipped_time t'
  /\ cumulative_time t = cumulative_time t'
  /\ forall day,
      day_invoice_time (day_stats t day)
      = day_invoice_time (day_stats t' day)
      /\ day_skipped_time (day_stats t day)
         = day_skipped_time (day_stats t' day)
      /\ day_cumulative_time (day_stats t day)
         = day_cumulative_time (day_stats t' day).

(** ** The same document in two runs

    The tags of a node are a set, and the order in which a set of strings is
    iterated can change from one process to the next.  Two runs over the
    same document therefore see the same nodes up to the order of their
    tags, at every level of the outline. *)
Fixpoint same_node (n n' : OutlineNode) : Prop :=
  heading n = heading n'
  /\ Permutation (tags n) (tags n')
  /\ properties n = properties n'
  /\ clock n = clock n'
  /\ match parent n, parent n' with
     | Some p, Some p' => same_node p p'
     | None, None => True
     | _, _ => False
     end.

(** The files of the settings hold the same documents for both loaders. *)
Definition same_files (settings : Settings)
    (load load' : string -> list OutlineNode) : Prop :=
  forall path, In path (org_files settings) ->
               Forall2 same_node (load path) (load' path).

(** Corresponding nodes of the two loaders resolve to the same issue. *)
Definition same_resolution (settings : Settings)
    (load load' : string -> list OutlineNode) : Prop :=
  forall path, In path (org_files settings) ->
               Forall2 (fun n n' => find_jira_issue n settings
                                    = find_jira_issue n' settings)
                       (load path) (load' path).

(** A task with two tags that are configured for two different issues, as
    two processes may iterate them, and a server that knows both issues;
    and the same task when only one of its tags is configured. *)
Definition two_issue_settings : Settings :=
  mkSettings [] {[ "a" := "X-1"; "b" := "X-2" ]} ["work.org"].

Definition one_issue_settings : Settings :=
  mkSettings [] {[ "a" := "X-1" ]} ["work.org"].

Definition task_ab : OutlineNode :=
  mkNode "task" ["a"; "b"] ∅ None [sample_clock].

Definition task_ba : OutlineNode :=
  mkNode "task" ["b"; "a"] ∅ None [sample_clock].

Definition two_issue_server : Jira :=
  mkJira {[ "X-1" := []; "X-2" := [] ]} [].

(** * Properties *)

(** ** Interval matcher *)

Lemma contains_ge ivl t :
  (t >=? start ivl) && (t <? end_ ivl) = contains ivl t.
Proof. unfold contains. by rewrite Z.geb_leb. Qed.

Lemma clip_min ce e : (if ce <? e then ce else e) = Z.min ce e.
Proof. destruct (Z.ltb_spec ce e); lia. Qed.

Lemma match_lookup_intervals_cons ivl rest cs ce :
  match_lookup_intervals (ivl :: rest) cs ce =
  if contains ivl cs then Some (mkInterval cs (Z.min ce (end_ ivl)))
  else match_lookup_intervals rest cs ce.
Proof. cbn. by rewrite contains_ge, clip_min. Qed.

Lemma match_lookup_intervals_spec ivls cs ce :
  match_lookup_intervals ivls cs ce = matcher_spec ivls cs ce.
Proof.
  unfold matcher_spec, first_containing.
  induction ivls as [|ivl rest IH]; [done|].
  rewrite match_lookup_intervals_cons. cbn [find].
  by destruct (contains ivl cs).
Qed.

Lemma match_lookup_intervals_skip before rest cs ce :
  Forall (fun ivl => contains ivl cs = false) before ->
  match_lookup_intervals (before ++ rest) cs ce =
  match_lookup_intervals rest cs ce.
Proof.
  induction 1 as [|ivl before Hivl _ IH]; [done|].
  rewrite <- app_comm_cons, match_lookup_intervals_cons. by rewrite Hivl.
Qed.

(** C1.  The matcher is the first requested interval, in the given order,
    that contains the clock start, with the clock start as its start and
    the lesser of the clock end and the window's end as its end; when no
    requested interval contains the clock start there is no match, whatever
    the clock end is. *)
Theorem matcher_first_window_clipped (ivls : list Interval) (cs ce : Z) :
  match_lookup_intervals ivls cs ce = matcher_spec ivls cs ce
  /\ (forall before ivl after,
        ivls = (before ++ ivl :: after)%list ->
        Forall (fun i => contains i cs = false) before ->
        contains ivl cs = true ->
        match_lookup_intervals ivls cs ce
        = Some (mkInterval cs (Z.min ce (end_ ivl))))
  /\ ((forall ivl, In ivl ivls -> contains ivl cs = false) ->
      match_lookup_intervals ivls cs ce = None).
Proof.
  split; [apply match_lookup_intervals_spec|]. split.
  - intros before ivl after -> Hbefore Hivl.
    rewrite match_lookup_intervals_skip by done.
    by rewrite match_lookup_intervals_cons, Hivl.
  - induction ivls as [|ivl rest IH]; intros Hnone; [done|].
    rewrite match_lookup_intervals_cons, (Hnone ivl) by (by left).
    apply IH. intros i Hi. apply Hnone. by right.
Qed.

(** Windows [0, 10) and [5, 20), clock 7..30: the first window wins and
    clips the end to 10.  Window [10, 20), clock 5..15: no match although
    the clock end lies inside the window. *)
Lemma matcher_first_window_clipped_witness :
  match_lookup_intervals [mkInterval 0 10; mkInterval 5 20] 7 30
  = Some (mkInterval 7 10)
  /\ match_lookup_intervals [mkInterval 10 20] 5 15 = None.
Proof.
  split.
  - apply (proj1 (proj2 (matcher_first_window_clipped
                           [mkInterval 0 10; mkInterval 5 20] 7 30))
             [] (mkInterval 0 10) [mkInterval 5 20]);
      [reflexivity | constructor | reflexivity].
  - apply (proj2 (proj2 (matcher_first_window_clipped
                           [mkInterval 10 20] 5 15))).
    intros ivl [<- | []]. reflexivity.
Defined.

(** ** Issue resolver *)

Lemma OutlineNode_ind (P : OutlineNode -> Prop) :
  (forall h t pr c, P (mkNode h t pr None c)) ->
  (forall h t pr p c, P p -> P (mkNode h t pr (Some p) c)) ->
  forall node, P node.
Proof.
  intros Hroot Hchild. fix IH 1.
  intros [h t pr [p|] c]; [apply Hchild, IH | apply Hroot].
Qed.

Lemma py_or_first_nonempty a rest :
  first_nonempty (a :: rest) = py_or a (first_nonempty rest).
Proof. reflexivity. Qed.

Lemma find_jira_issue_unfold node settings :
  find_jira_issue node settings =
  py_or (find_issue_in_property node settings)
    (py_or (find_issue_in_heading node settings)
       (py_or (find_issue_by_tag node settings)
          (find_issue_in_parent node settings))).
Proof. by destruct node. Qed.

(** The resolver returns [None] or a non-empty string. *)
Lemma find_jira_issue_falsy node settings :
  truthy (find_jira_issue node settings) = false ->
  find_jira_issue node settings = None.
Proof.
  induction node as [h t pr c | h t pr p c IH] using OutlineNode_ind;
    rewrite find_jira_issue_unfold; unfold find_issue_in_parent, py_or;
    cbn [parent];
    repeat (match goal with
            | |- context [if truthy ?x then _ else _] =>
                destruct (truthy x) eqn:?
            end); try congruence; auto.
Qed.

Lemma find_issue_in_parent_falsy node settings :
  truthy (find_issue_in_parent node settings) = false ->
  find_issue_in_parent node settings = None.
Proof.
  unfold find_issue_in_parent. destruct (parent node); [|done].
  apply find_jira_issue_falsy.
Qed.

Lemma find_jira_issue_own node settings :
  find_jira_issue node settings =
  py_or (own_issue node settings) (find_issue_in_parent node settings).
Proof.
  rewrite find_jira_issue_unfold. unfold own_issue, first_nonempty, py_or.
  destruct (truthy (find_issue_in_property node settings)) eqn:Hp;
    [by rewrite Hp|].
  destruct (truthy (find_issue_in_heading node settings)) eqn:Hh;
    [by rewrite Hh|].
  destruct (truthy (find_issue_by_tag node settings)) eqn:Ht;
    [by rewrite Ht|done].
Qed.

Lemma own_issue_None node settings :
  own_issue node settings = None ->
  truthy (find_issue_in_property node settings) = false
  /\ truthy (find_issue_in_heading node settings) = false
  /\ truthy (find_issue_by_tag node settings) = false.
Proof.
  unfold own_issue, first_nonempty.
  destruct (truthy (find_issue_in_property node settings)) eqn:Hp;
    [intros Hn; rewrite Hn in Hp; discriminate|].
  destruct (truthy (find_issue_in_heading node settings)) eqn:Hh;
    [intros Hn; rewrite Hn in Hh; discriminate|].
  destruct (truthy (find_issue_by_tag node settings)) eqn:Ht;
    [intros Hn; rewrite Hn in Ht; discriminate|done].
Qed.

Lemma find_jira_issue_counted_fst node settings :
  fst (find_jira_issue_counted node settings) = find_jira_issue node settings.
Proof.
  induction node as [h t pr c | h t pr p c IH] using OutlineNode_ind;
    rewrite find_jira_issue_unfold; unfold find_issue_in_parent, py_or;
    cbn [find_jira_issue_counted parent];
    repeat (match goal with
            | |- context [if truthy ?x then _ else _] =>
                destruct (truthy x) eqn:?
            end); try done.
  destruct (find_jira_issue_counted p settings). by rewrite <- IH.
Qed.

Lemma find_jira_issue_counted_snd node settings :
  (1 <= snd (find_jira_issue_counted node settings) <= S (depth node))%nat.
Proof.
  induction node as [h t pr c | h t pr p c IH] using OutlineNode_ind;
    cbn [find_jira_issue_counted parent depth];
    repeat (match goal with
            | |- context [if truthy ?x then _ else _] =>
                destruct (truthy x) eqn:?
            end); cbn [snd]; try lia.
  destruct (find_jira_issue_counted p settings). cbn [snd] in *. lia.
Qed.

Lemma find_jira_issue_by_property node settings :
  truthy (find_issue_in_property node settings) = true ->
  find_jira_issue node settings = find_issue_in_property node settings.
Proof.
  intros Hp. rewrite find_jira_issue_unfold. unfold py_or. by rewrite Hp.
Qed.

Lemma find_jira_issue_by_heading node settings :
  truthy (find_issue_in_property node settings) = false ->
  truthy (find_issue_in_heading node settings) = true ->
  find_jira_issue node settings = find_issue_in_heading node settings.
Proof.
  intros Hp Hh. rewrite find_jira_issue_unfold. unfold py_or.
  by rewrite Hp, Hh.
Qed.

Lemma find_jira_issue_by_tag node settings :
  truthy (find_issue_in_property node settings) = false ->
  truthy (find_issue_in_heading node settings) = false ->
  truthy (find_issue_by_tag node settings) = true ->
  find_jira_issue node settings = find_issue_by_tag node settings.
Proof.
  intros Hp Hh Ht. rewrite find_jira_issue_unfold. unfold py_or.
  by rewrite Hp, Hh, Ht.
Qed.

Lemma find_jira_issue_by_parent node settings :
  truthy (find_issue_in_property node settings) = false ->
  truthy (find_issue_in_heading node settings) = false ->
  truthy (find_issue_by_tag node settings) = false ->
  find_jira_issue node settings = find_issue_in_parent node settings.
Proof.
  intros Hp Hh Ht. rewrite find_jira_issue_unfold. unfold py_or.
  by rewrite Hp, Hh, Ht.
Qed.

(** C2.  The resolver is the first non-empty result of the four strategies
    in the order property, heading pattern, tag, parent.  Once a strategy
    yields a non-empty result and the ones before it do not, that result is
    returned, and it is the same for any other node and settings on which
    the strategies up to that one give the same results, whatever the later
    strategies would give there. *)
Theorem resolver_precedence (node : OutlineNode) (settings : Settings) :
  let p := find_issue_in_property node settings in
  let h := find_issue_in_heading node settings in
  let t := find_issue_by_tag node settings in
  let a := find_issue_in_parent node settings in
  find_jira_issue node settings = first_nonempty [p; h; t; a]
  /\ (truthy p = true -> find_jira_issue node settings = p)
  /\ (truthy p = false -> truthy h = true ->
      find_jira_issue node settings = h)
  /\ (truthy p = false -> truthy h = false -> truthy t = true ->
      find_jira_issue node settings = t)
  /\ (truthy p = false -> truthy h = false -> truthy t = false ->
      find_jira_issue node settings = a)
  /\ (forall node' settings',
        let p' := find_issue_in_property node' settings' in
        let h' := find_issue_in_heading node' settings' in
        let t' := find_issue_by_tag node' settings' in
        (truthy p = true /\ p' = p
         \/ truthy p = false /\ truthy h = true /\ p' = p /\ h' = h
         \/ truthy p = false /\ truthy h = false /\ truthy t = true
            /\ p' = p /\ h' = h /\ t' = t) ->
        find_jira_issue node' settings' = find_jira_issue node settings).
Proof.
  cbv zeta. split; [|repeat split].
  - rewrite find_jira_issue_unfold. unfold first_nonempty, py_or.
    destruct (truthy (find_issue_in_property node settings)); [done|].
    destruct (truthy (find_issue_in_heading node settings)); [done|].
    destruct (truthy (find_issue_by_tag node settings)); [done|].
    destruct (truthy (find_issue_in_parent node settings)) eqn:Ha; [done|].
    by apply find_issue_in_parent_falsy.
  - apply find_jira_issue_by_property.
  - apply find_jira_issue_by_heading.
  - apply find_jira_issue_by_tag.
  - apply find_jira_issue_by_parent.
  - intros node' settings'
      [[Hp Ep] | [(Hp & Hh & Ep & Eh) | (Hp & Hh & Ht & Ep & Eh & Et)]].
    + rewrite !find_jira_issue_by_property; congruence.
    + rewrite !find_jira_issue_by_heading; congruence.
    + rewrite !find_jira_issue_by_tag; congruence.
Qed.

(** [sample_override]: the heading names PROJ-42, a tag maps to OPS-3, the
    parent carries PROJ-9, and the node's own property names PROJ-7: the
    property wins. *)
Lemma resolver_precedence_witness :
  find_jira_issue sample_override sample_settings = Some "PROJ-7".
Proof.
  rewrite (proj1 (proj2 (resolver_precedence sample_override
                           sample_settings))); reflexivity.
Defined.

Lemma property_at_root_resolves settings v node n :
  v <> "" ->
  property_at_root settings v node n ->
  find_jira_issue_counted node settings = (Some v, S n).
Proof.
  intros Hv. induction 1 as [node Hpar Hprop | node p n Hpar Hown _ IH].
  - destruct node as [h t pr par c]. cbn in Hpar, Hprop.
    cbn [find_jira_issue_counted]. unfold find_issue_in_property.
    cbn [properties]. rewrite Hprop. cbn [truthy].
    destruct (String.eqb_spec v ""); [done|]. done.
  - apply own_issue_None in Hown as (Hp & Hh & Ht).
    destruct node as [h t pr par c]. cbn in Hpar. subst par.
    cbn [find_jira_issue_counted parent]. rewrite Hp, Hh, Ht.
    by rewrite IH.
Qed.

(** C3.  The resolver is a total function on parent chains.  A node that
    yields nothing by itself and has no parent resolves to no match, in one
    activation.  On a chain of [n] links where only the topmost node
    resolves by itself, through a non-empty [jira-task] property, the lowest
    node resolves to the value of that property after [n + 1] activations
    of the resolver; and no resolution takes more activations than the node
    has ancestors, plus one. *)
Theorem parent_inheritance_terminates (settings : Settings) :
  (forall node,
      parent node = None -> own_issue node settings = None ->
      find_jira_issue node settings = None
      /\ find_jira_issue_counted node settings = (None, 1%nat))
  /\ (forall v node n,
        v <> "" -> property_at_root settings v node n ->
        find_jira_issue node settings = Some v
        /\ find_jira_issue_counted node settings = (Some v, S n))
  /\ (forall node,
        fst (find_jira_issue_counted node settings)
        = find_jira_issue node settings
        /\ (1 <= snd (find_jira_issue_counted node settings)
            <= S (depth node))%nat).
Proof.
  split_and!.
  - intros node Hpar Hown. split.
    + rewrite find_jira_issue_own. unfold find_issue_in_parent.
      by rewrite Hpar, Hown.
    + apply own_issue_None in Hown as (Hp & Hh & Ht).
      destruct node as [h t pr par c]. cbn in Hpar. subst par.
      cbn [find_jira_issue_counted parent]. by rewrite Hp, Hh, Ht.
  - intros v node n Hv Hchain. split.
    + rewrite <- find_jira_issue_counted_fst.
      by rewrite (property_at_root_resolves settings v node n).
    + by apply property_at_root_resolves.
  - intros node. split.
    + apply find_jira_issue_counted_fst.
    + apply find_jira_issue_counted_snd.
Qed.

(** [sample_leaf] has two ancestors; only the topmost one has a property. *)
Lemma parent_inheritance_terminates_witness :
  find_jira_issue sample_leaf sample_settings = Some "PROJ-9"
  /\ find_jira_issue_counted sample_leaf sample_settings
     = (Some "PROJ-9", 3%nat).
Proof.
  apply (proj1 (proj2 (parent_inheritance_terminates sample_settings))).
  - discriminate.
  - eapply below; [reflexivity | reflexivity |].
    eapply below; [reflexivity | reflexivity |].
    apply at_root; reflexivity.
Defined.

(** ** Submission gate *)

Lemma writes_app cs1 cs2 :
  writes (cs1 ++ cs2) = (writes cs1 ++ writes cs2)%list.
Proof.
  induction cs1 as [|[] cs1 IH]; cbn; [done| done | done |by rewrite IH].
Qed.

#[local] Arguments already_submitted : simpl never.
#[local] Arguments td_seconds : simpl never.

Lemma send_interval_to_jira_outcome key interval description q s j :
  send_interval_to_jira key interval description q s j
  = gate_outcome key interval description q s j.
Proof.
  unfold send_interval_to_jira, gate_outcome.
  unfold mbind, M_bind, mret, M_ret, jira.issue, jira.worklogs,
    jira.add_worklog, received.
  destruct q; cbn.
  - destruct (worklog_store j !! key) as [ws|] eqn:Hkey; cbn; [|done].
    rewrite Hkey. cbn.
    destruct (already_submitted ws (start interval)); [done|].
    destruct s; cbn; [|done].
    destruct (td_seconds (end_ interval - start interval) =? 0); cbn; [done|].
    rewrite Hkey. by rewrite <- !app_assoc.
  - destruct s; cbn; [|by destruct j].
    destruct (td_seconds (end_ interval - start interval) =? 0); cbn;
      [by destruct j|].
    destruct (worklog_store j !! key) as [ws|] eqn:Hkey; cbn; [|done].
    rewrite Hkey. by rewrite <- !app_assoc.
Qed.

Lemma already_submitted_In ws t :
  already_submitted ws t = true <-> exists w, In w ws /\ started w = t.
Proof.
  unfold already_submitted. rewrite existsb_exists.
  split; intros (w & Hw & Ht); exists w; split; auto; lia.
Qed.

(** C4.  With [query_jira] set, when a work-log of the issue on the server
    starts at the interval's start, the gate returns [False] after its two
    reads and sends no create-worklog request, whatever [send_data] is: the
    stored work-logs and the create requests are what they were. *)
Theorem duplicate_start_not_sent (key : string) (interval : Interval)
    (description : string) (send_data : bool) (j : Jira)
    (ws : list Worklog) (w : Worklog) :
  worklog_store j !! key = Some ws ->
  In w ws ->
  started w = start interval ->
  let '(out, j') :=
    send_interval_to_jira key interval description true send_data j in
  out = Ok false
  /\ worklog_store j' = worklog_store j
  /\ writes (calls j') = writes (calls j)
  /\ calls j' = (calls j ++ [CallIssue key; CallWorklogs key])%list.
Proof.
  intros Hkey Hw Hstart.
  rewrite send_interval_to_jira_outcome. unfold gate_outcome.
  rewrite Hkey.
  assert (already_submitted ws (start interval) = true) as ->
    by (apply already_submitted_In; eauto).
  cbn. repeat split.
  - rewrite <- app_assoc, writes_app. cbn. by rewrite app_nil_r.
  - by rewrite <- app_assoc.
Qed.

(** The work-log of the sample entry is on the server: the entry is not
    sent again. *)
Lemma duplicate_start_not_sent_witness :
  let '(out, j') :=
    send_interval_to_jira "PROJ-42" (mkInterval 122400 133200)
      "PROJ-42 review" true true synced_server in
  out = Ok false
  /\ worklog_store j' = worklog_store synced_server
  /\ writes (calls j') = writes (calls synced_server)
  /\ calls j' = (calls synced_server
                 ++ [CallIssue "PROJ-42"; CallWorklogs "PROJ-42"])%list.
Proof.
  apply (duplicate_start_not_sent "PROJ-42" (mkInterval 122400 133200)
           "PROJ-42 review" true synced_server
           [sample_worklog] sample_worklog);
    [reflexivity | left; reflexivity | reflexivity].
Defined.

Lemma td_seconds_zero t : td_seconds (t - t) = 0.
Proof. unfold td_seconds. by rewrite Z.sub_diag. Qed.

Lemma td_seconds_range d : 0 <= td_seconds d < 86400.
Proof. unfold td_seconds. apply Z.mod_pos_bound. lia. Qed.

Lemma td_seconds_le d : 0 <= d -> td_seconds d <= d.
Proof. intros Hd. unfold td_seconds. apply Z.mod_le; lia. Qed.

Lemma td_seconds_small d : 0 <= d < 86400 -> td_seconds d = d.
Proof. intros Hd. unfold td_seconds. by apply Z.mod_small. Qed.

(** The gate on an interval whose [.seconds] is zero: nothing is written,
    and the outcome is [False] or, when the query hits an unknown issue, a
    raise. *)
Lemma gate_outcome_no_seconds key interval description q s j :
  td_seconds (end_ interval - start interval) = 0 ->
  gate_outcome key interval description q s j
  = if q then
      match worklog_store j !! key with
      | None => (Raised, received (CallIssue key) j)
      | Some _ =>
          (Ok false,
           received (CallWorklogs key) (received (CallIssue key) j))
      end
    else (Ok false, j).
Proof.
  intros Hz. unfold gate_outcome. rewrite Hz. cbn [Z.eqb negb].
  rewrite andb_false_r.
  destruct q; [|done].
  destruct (worklog_store j !! key); [|done].
  by destruct (already_submitted _ _).
Qed.

(** ** Reconciliation driver *)

Lemma day_stats_update_day f day t day' :
  day_stats (update_day f day t) day'
  = if decide (day = day') then f (day_stats t day) else day_stats t day'.
Proof.
  unfold day_stats at 1, update_day. cbn [per_day].
  rewrite lookup_insert. by destruct (decide (day = day')).
Qed.

Lemma task_time_add_task_time task d t task' :
  task_time (add_task_time task d t) task'
  = if decide (task = task') then task_time t task + d else task_time t task'.
Proof.
  unfold task_time at 1, add_task_time. cbn [per_task].
  rewrite lookup_insert. by destruct (decide (task = task')).
Qed.

Lemma day_stats_entry_totals skip issue c t day' :
  day_stats (entry_totals skip issue c t) day'
  = if decide (date (clock_start c) = day') then
      let s := day_stats t day' in
      mkDay (day_invoice_time s + (if skip then 0 else clock_duration c))
            (day_skipped_time s + (if skip then clock_duration c else 0))
            (day_cumulative_time s + clock_duration c)
            (day_added_time s)
    else day_stats t day'.
Proof.
  unfold entry_totals. cbv zeta.
  change (day_stats (add_task_time ?i ?d ?x) ?y) with (day_stats x y).
  change (day_stats (add_cumulative_time ?d ?x) ?y) with (day_stats x y).
  destruct skip; rewrite !day_stats_update_day;
    change (day_stats (add_skipped_time ?d ?x) ?y) with (day_stats x y);
    change (day_stats (add_invoice_time ?d ?x) ?y) with (day_stats x y);
    destruct (decide (date (clock_start c) = day')) as [Heq|Hne];
    try done; subst day'; (case_decide; [|done]);
    unfold add_day_cumulative, add_day_skipped, add_day_invoice; cbn;
    f_equal; lia.
Qed.

Lemma totals_entry_totals skip issue c t :
  invoice_time (entry_totals skip issue c t)
  = invoice_time t + (if skip then 0 else clock_duration c)
  /\ skipped_time (entry_totals skip issue c t)
     = skipped_time t + (if skip then clock_duration c else 0)
  /\ cumulative_time (entry_totals skip issue c t)
     = cumulative_time t + clock_duration c.
Proof. destruct skip; cbn; lia. Qed.

Lemma task_time_entry_totals skip issue c t task' :
  task_time (entry_totals skip issue c t) task'
  = if decide (issue = task') then task_time t issue + clock_duration c
    else task_time t task'.
Proof.
  unfold entry_totals. cbv zeta. rewrite task_time_add_task_time.
  by destruct skip.
Qed.

Lemma clock_body_matched args settings node skip clocked m r :
  match_lookup_intervals (intervals args)
    (clock_start clocked) (clock_end clocked) = Some m ->
  clock_body args settings node skip clocked r =
    let issue := find_jira_issue node settings in
    let t1 := entry_totals skip issue clocked (totals r) in
    if truthy issue && negb skip then
      match send_interval_to_jira (default "" issue) m (heading node)
              (query_jira args) (args_send_data_to_jira args) (server r) with
      | (Ok true, j') =>
          (Ok tt,
           mkRun (update_day (add_day_added (clock_duration clocked))
                    (date (clock_start clocked)) t1) j')
      | (Ok false, j') => (Ok tt, mkRun t1 j')
      | (Raised, j') => (Raised, mkRun t1 j')
      end
    else (Ok tt, mkRun t1 (server r)).
Proof.
  intros Hm. unfold clock_body. rewrite Hm. cbv zeta.
  unfold mbind, M_bind, mret, M_ret, update, on_server, entry_totals.
  destruct skip; cbn [totals server].
  - by rewrite andb_false_r.
  - rewrite andb_true_r.
    destruct (truthy (find_jira_issue node settings)); [|done].
    destruct (send_interval_to_jira _ _ _ _ _ _) as [[[]|] j']; done.
Qed.

Lemma clock_body_unmatched args settings node skip clocked r :
  match_lookup_intervals (intervals args)
    (clock_start clocked) (clock_end clocked) = None ->
  clock_body args settings node skip clocked r = (Ok tt, r).
Proof. intros Hm. unfold clock_body. by rewrite Hm. Qed.

Lemma day_stats_add_day_added d day t day' :
  day_stats (update_day (add_day_added d) day t) day'
  = if decide (day = day') then
      mkDay (day_invoice_time (day_stats t day'))
            (day_skipped_time (day_stats t day'))
            (day_cumulative_time (day_stats t day'))
            (day_added_time (day_stats t day') + d)
    else day_stats t day'.
Proof.
  rewrite day_stats_update_day.
  by destruct (decide (day = day')) as [<-|].
Qed.

(** The totals after the loop body on a matched entry: the unconditional
    updates, and the added time when the gate was called and returned
    [True]. *)
Lemma clock_body_totals args settings node skip clocked m r :
  match_lookup_intervals (intervals args)
    (clock_start clocked) (clock_end clocked) = Some m ->
  let t1 := entry_totals skip (find_jira_issue node settings) clocked
              (totals r) in
  let gate := send_interval_to_jira
                (default "" (find_jira_issue node settings)) m (heading node)
                (query_jira args) (args_send_data_to_jira args) (server r) in
  totals (snd (clock_body args settings node skip clocked r))
  = if truthy (find_jira_issue node settings) && negb skip then
      match fst gate with
      | Ok true =>
          update_day (add_day_added (clock_duration clocked))
            (date (clock_start clocked)) t1
      | _ => t1
      end
    else t1.
Proof.
  intros Hm. cbv zeta. rewrite (clock_body_matched _ _ _ _ _ m) by done.
  cbv zeta.
  destruct (truthy (find_jira_issue node settings) && negb skip); [|done].
  by destruct (send_interval_to_jira _ _ _ _ _ _) as [[[]|] j'].
Qed.

(** C5.  An interval whose end equals its start is never written: whatever
    the issue, the description and the two flags, the gate leaves the stored
    work-logs and the create requests as they were and does not return
    [True]; it returns [False] whenever its read of the issue, if any,
    succeeds.  The loop body of the driver on an entry matched to such an
    interval leaves the added time of every day as it was. *)
Theorem zero_length_never_sent (interval : Interval) :
  end_ interval = start interval ->
  (forall key description q s j,
      let '(out, j') :=
        send_interval_to_jira key interval description q s j in
      worklog_store j' = worklog_store j
      /\ writes (calls j') = writes (calls j)
      /\ out <> Ok true
      /\ (q = false \/ is_Some (worklog_store j !! key) -> out = Ok false))
  /\ (forall args settings node skip clocked r day,
        match_lookup_intervals (intervals args)
          (clock_start clocked) (clock_end clocked) = Some interval ->
        day_added_time
          (day_stats
             (totals (snd (clock_body args settings node skip clocked r)))
             day)
        = day_added_time (day_stats (totals r) day)).
Proof.
  intros Hzero.
  assert (td_seconds (end_ interval - start interval) = 0) as Hsecs
    by (rewrite Hzero; apply td_seconds_zero).
  assert (forall key description q s j,
             fst (send_interval_to_jira key interval description q s j)
             <> Ok true) as Hnot.
  { intros key description q s j.
    rewrite send_interval_to_jira_outcome, gate_outcome_no_seconds by done.
    destruct q; [|done]. by destruct (worklog_store j !! key). }
  split.
  - intros key description q s j. specialize (Hnot key description q s j).
    rewrite send_interval_to_jira_outcome, gate_outcome_no_seconds in * by done.
    destruct q.
    + destruct (worklog_store j !! key) as [ws|]; cbn; split_and!;
        try done.
      * rewrite !writes_app. cbn. by rewrite !app_nil_r.
      * rewrite writes_app. cbn. by rewrite app_nil_r.
      * intros [? | [? ?]]; done.
    + done.
  - intros args settings node skip clocked r day Hm.
    rewrite (clock_body_totals _ _ _ _ _ interval) by done.
    assert (day_added_time
              (day_stats (entry_totals skip (find_jira_issue node settings)
                            clocked (totals r)) day)
            = day_added_time (day_stats (totals r) day)) as Hsame.
    { rewrite day_stats_entry_totals. by case_decide. }
    destruct (truthy _ && negb skip); [|done].
    match goal with
    | |- context [fst (send_interval_to_jira ?k ?i ?d ?q ?s ?j)] =>
        specialize (Hnot k d q s j);
        destruct (fst (send_interval_to_jira k i d q s j)) as [[]|]
    end; done.
Qed.

(** An entry clocked in and out at 10:00 on 2024-01-02: matched, with a
    zero-length interval; the gate returns [False] on the fresh server. *)
Lemma zero_length_never_sent_witness :
  let '(out, j') :=
    send_interval_to_jira "PROJ-42" (mkInterval 122400 122400)
      "PROJ-42 review" true true fresh_server in
  worklog_store j' = worklog_store fresh_server
  /\ writes (calls j') = writes (calls fresh_server)
  /\ out <> Ok true
  /\ (true = false \/ is_Some (worklog_store fresh_server !! "PROJ-42") ->
      out = Ok false).
Proof.
  apply (proj1 (zero_length_never_sent (mkInterval 122400 122400)
                  eq_refl)).
Defined.

(** For an interval shorter than a day and not yet on the server, the gate
    with [send_data] set creates one work-log with the interval's start,
    its whole duration and the description, and returns [True]. *)
Lemma gate_sends_within_a_day key interval description q j ws :
  0 < end_ interval - start interval < 86400 ->
  worklog_store j !! key = Some ws ->
  already_submitted ws (start interval) = false ->
  let w := mkWorklog (start interval) (end_ interval - start interval)
             description in
  fst (send_interval_to_jira key interval description q true j) = Ok true
  /\ worklog_store
       (snd (send_interval_to_jira key interval description q true j))
     = <[key := (ws ++ [w])%list]> (worklog_store j)
  /\ writes (calls (snd (send_interval_to_jira key interval description q
                           true j)))
     = (writes (calls j) ++ [(key, w)])%list.
Proof.
  intros Hd Hkey Hdup. cbv zeta.
  rewrite send_interval_to_jira_outcome. unfold gate_outcome. cbv zeta.
  rewrite Hkey, Hdup, td_seconds_small by lia.
  destruct (Z.eqb_spec (end_ interval - start interval) 0); [lia|].
  cbn [andb negb].
  destruct q; cbn [fst snd worklog_store calls received]; split_and!;
    try done; rewrite !writes_app; cbn; by rewrite ?app_nil_r.
Qed.

(** C6, at the inputs where the code departs from it.  The window
    2024-01-01..2024-01-11 matches an entry from 10:00 on 2024-01-02 to
    10:00 on 2024-01-03 with a 24-hour interval; the gate, with both flags
    set and no work-log on the server, returns [False] and sends no create
    request, because the [seconds] field of a 24-hour [timedelta] is zero.
    For the entry that ends at 11:00 on 2024-01-03 (25 hours) the gate
    creates a work-log of 3600 seconds. *)
Theorem whole_days_dropped_from_duration :
  match_lookup_intervals [mkInterval 0 864000] 122400 208800
  = Some (mkInterval 122400 208800)
  /\ end_ (mkInterval 122400 208800) - start (mkInterval 122400 208800)
     = 86400
  /\ fst (send_interval_to_jira "PROJ-42" (mkInterval 122400 208800)
            "PROJ-42 review" true true fresh_server) = Ok false
  /\ writes (calls (snd (send_interval_to_jira "PROJ-42"
                           (mkInterval 122400 208800)
                           "PROJ-42 review" true true fresh_server))) = []
  /\ end_ (mkInterval 122400 212400) - start (mkInterval 122400 212400)
     = 90000
  /\ fst (send_interval_to_jira "PROJ-42" (mkInterval 122400 212400)
            "PROJ-42 review" true true fresh_server) = Ok true
  /\ writes (calls (snd (send_interval_to_jira "PROJ-42"
                           (mkInterval 122400 212400)
                           "PROJ-42 review" true true fresh_server)))
     = [("PROJ-42", mkWorklog 122400 3600 "PROJ-42 review")].
Proof. repeat split; vm_compute; reflexivity. Qed.



Lemma clock_body_skipped args settings node clocked r :
  clock_body args settings node true clocked r
  = (Ok tt,
     mkRun (if matches (intervals args) clocked
            then entry_totals true (find_jira_issue node settings) clocked
                   (totals r)
            else totals r)
           (server r)).
Proof.
  unfold matches.
  destruct (match_lookup_intervals (intervals args) (clock_start clocked)
              (clock_end clocked)) as [m|] eqn:Hm.
  - rewrite (clock_body_matched _ _ _ _ _ m) by done. cbv zeta.
    by rewrite andb_false_r.
  - rewrite clock_body_unmatched by done. by destruct r.
Qed.

Lemma for_each_cons {S A} (body : A -> M S unit) x l s :
  for_each body (x :: l) s
  = match body x s with
    | (Ok _, s1) => for_each body l s1
    | (Raised, s1) => (Raised, s1)
    end.
Proof. reflexivity. Qed.

Lemma for_each_skipped args settings node cs r :
  let r' := snd (for_each (clock_body args settings node true) cs r) in
  let total := matched_time (intervals args) cs in
  let issue := find_jira_issue node settings in
  fst (for_each (clock_body args settings node true) cs r) = Ok tt
  /\ server r' = server r
  /\ task_time (totals r') issue = task_time (totals r) issue + total
  /\ cumulative_time (totals r') = cumulative_time (totals r) + total
  /\ skipped_time (totals r') = skipped_time (totals r) + total
  /\ invoice_time (totals r') = invoice_time (totals r)
  /\ (forall day,
        let on_day := matched_time_on day (intervals args) cs in
        day_stats (totals r') day
        = mkDay (day_invoice_time (day_stats (totals r) day))
                (day_skipped_time (day_stats (totals r) day) + on_day)
                (day_cumulative_time (day_stats (totals r) day) + on_day)
                (day_added_time (day_stats (totals r) day))).
Proof.
  cbv zeta. revert r. induction cs as [|c cs IH]; intros r.
  - cbn. split_and!; try done; try lia.
    intros day. destruct (day_stats (totals r) day). cbn. f_equal; lia.
  - rewrite for_each_cons, clock_body_skipped.
    set (r1 := mkRun _ (server r)).
    destruct (IH r1) as (Hout & Hsrv & Htask & Hcum & Hskp & Hinv & Hday).
    rewrite Hsrv, Htask, Hcum, Hskp, Hinv. cbn [matched_time].
    unfold r1. cbn [totals server]. split_and!; try done.
    + destruct (matches (intervals args) c); [|lia].
      rewrite task_time_entry_totals, decide_True by done. lia.
    + destruct (matches (intervals args) c); [|lia].
      destruct (totals_entry_totals true (find_jira_issue node settings) c
                  (totals r)) as (_ & _ & ->). lia.
    + destruct (matches (intervals args) c); [|lia].
      destruct (totals_entry_totals true (find_jira_issue node settings) c
                  (totals r)) as (_ & -> & _). lia.
    + destruct (matches (intervals args) c); [|lia].
      destruct (totals_entry_totals true (find_jira_issue node settings) c
                  (totals r)) as (-> & _ & _). lia.
    + intros day. rewrite Hday. unfold r1. cbn [totals matched_time_on].
      destruct (matches (intervals args) c); cbn [andb].
      * rewrite day_stats_entry_totals.
        destruct (decide (date (clock_start c) = day)) as [Heq|Hne].
        -- rewrite (proj2 (Z.eqb_eq _ _) Heq). cbn. f_equal; lia.
        -- rewrite (proj2 (Z.eqb_neq _ _) Hne). f_equal; lia.
      * f_equal; lia.
Qed.

(** C8.  For a node whose [jira-skip] property is set, the loop over its
    clock entries leaves the server as it was: no request is sent, so no
    work-log is written, and nothing raises.  The resolver is still run: the
    total recorded time of the matched entries is added to the time of the
    task it returns (the [None] key when it finds nothing), to the
    cumulative time and to the skipped time, globally and day by day, and
    the invoiced and added times stay as they were. *)
Theorem skipped_node_counted_not_sent (args : Args) (settings : Settings)
    (node : OutlineNode) (r : Run) :
  truthy (properties node !! "jira-skip") = true ->
  let r' := snd (node_body args settings node r) in
  let total := matched_time (intervals args) (clock node) in
  let issue := find_jira_issue node settings in
  fst (node_body args settings node r) = Ok tt
  /\ server r' = server r
  /\ task_time (totals r') issue = task_time (totals r) issue + total
  /\ cumulative_time (totals r') = cumulative_time (totals r) + total
  /\ skipped_time (totals r') = skipped_time (totals r) + total
  /\ invoice_time (totals r') = invoice_time (totals r)
  /\ (forall day,
        let on_day := matched_time_on day (intervals args) (clock node) in
        day_stats (totals r') day
        = mkDay (day_invoice_time (day_stats (totals r) day))
                (day_skipped_time (day_stats (totals r) day) + on_day)
                (day_cumulative_time (day_stats (totals r) day) + on_day)
                (day_added_time (day_stats (totals r) day))).
Proof.
  intros Hskip.
  assert (node_body args settings node r
          = for_each (clock_body args settings node true) (clock node) r)
    as ->.
  { unfold node_body. rewrite Hskip. by destruct (clock node). }
  apply for_each_skipped.
Qed.

(** [sample_review_skipped]: three hours under PROJ-42, in the cumulative
    and in the skipped time, and not one request to the server. *)
Lemma skipped_node_counted_not_sent_witness :
  let r := mkRun no_totals fresh_server in
  let r' := snd (node_body sample_args sample_settings
                   sample_review_skipped r) in
  fst (node_body sample_args sample_settings sample_review_skipped r)
  = Ok tt
  /\ server r' = fresh_server
  /\ task_time (totals r') (Some "PROJ-42") = 10800
  /\ cumulative_time (totals r') = 10800
  /\ skipped_time (totals r') = 10800
  /\ invoice_time (totals r') = 0.
Proof.
  pose proof (skipped_node_counted_not_sent sample_args sample_settings
                sample_review_skipped (mkRun no_totals fresh_server)
                eq_refl) as H.
  cbv zeta in H. destruct H as (H1 & H2 & H3 & H4 & H5 & H6 & _).
  cbv zeta. rewrite H1, H2, H4, H5, H6.
  change (find_jira_issue sample_review_skipped sample_settings)
    with (Some "PROJ-42") in H3.
  rewrite H3. repeat split; reflexivity.
Defined.

(** What a [True] from the gate means for the server. *)
Lemma gate_sent key interval description q s j j' :
  send_interval_to_jira key interval description q s j = (Ok true, j') ->
  let w := mkWorklog (start interval)
             (td_seconds (end_ interval - start interval)) description in
  exists ws,
    worklog_store j !! key = Some ws
    /\ worklog_store j' = <[key := (ws ++ [w])%list]> (worklog_store j)
    /\ writes (calls j') = (writes (calls j) ++ [(key, w)])%list
    /\ td_seconds (end_ interval - start interval) <> 0
    /\ s = true
    /\ (q = true -> already_submitted ws (start interval) = false).
Proof.
  rewrite send_interval_to_jira_outcome. unfold gate_outcome. cbv zeta.
  destruct q.
  - destruct (worklog_store j !! key) as [ws|]; [|done].
    destruct (already_submitted ws (start interval)) eqn:Hdup; [done|].
    destruct s; cbn [andb]; [|done].
    destruct (Z.eqb_spec (td_seconds (end_ interval - start interval)) 0);
      cbn [negb]; [done|].
    intros [= <-]. exists ws. cbn. split_and!; try done.
    rewrite !writes_app. cbn. by rewrite ?app_nil_r.
  - destruct s; cbn [andb]; [|done].
    destruct (Z.eqb_spec (td_seconds (end_ interval - start interval)) 0);
      cbn [negb]; [done|].
    destruct (worklog_store j !! key) as [ws|]; [|done].
    intros [= <-]. exists ws. cbn. split_and!; try done.
    rewrite !writes_app. cbn. by rewrite ?app_nil_r.
Qed.

Lemma find_jira_issue_Some_truthy node settings key :
  find_jira_issue node settings = Some key ->
  truthy (find_jira_issue node settings) = true.
Proof.
  intros Hkey. destruct (truthy (find_jira_issue node settings)) eqn:Ht;
    [done|].
  apply find_jira_issue_falsy in Ht. congruence.
Qed.

(** C10.  For an entry of a node that is not skipped, matched to the window
    [window] and resolved to [key]: when the gate returns [True] for the
    clipped interval, the loop body adds the recorded duration of the entry
    to the added time of the day of its start, while the work-log created
    carries the [seconds] of the clipped interval.  When the recorded end
    lies beyond the end of the window, the clipped interval ends at the
    window's end and the seconds submitted are fewer than the duration
    added. *)
Theorem added_time_is_recorded_duration (args : Args) (settings : Settings)
    (node : OutlineNode) (clocked : ClockEntry) (r : Run)
    (window : Interval) (key : string) (j' : Jira) :
  first_containing (intervals args) (clock_start clocked) = Some window ->
  find_jira_issue node settings = Some key ->
  let m := mkInterval (clock_start clocked)
             (Z.min (clock_end clocked) (end_ window)) in
  send_interval_to_jira key m (heading node) (query_jira args)
    (args_send_data_to_jira args) (server r) = (Ok true, j') ->
  let r' := snd (clock_body args settings node false clocked r) in
  let day := date (clock_start clocked) in
  let submitted := td_seconds (end_ m - start m) in
  fst (clock_body args settings node false clocked r) = Ok tt
  /\ server r' = j'
  /\ day_added_time (day_stats (totals r') day)
     = day_added_time (day_stats (totals r) day) + clock_duration clocked
  /\ writes (calls j')
     = (writes (calls (server r))
        ++ [(key, mkWorklog (clock_start clocked) submitted
                    (heading node))])%list
  /\ (clock_wf clocked -> end_ window < clock_end clocked ->
      end_ m = end_ window /\ submitted < clock_duration clocked).
Proof.
  intros Hwin Hkey m Hsent. cbv zeta.
  assert (match_lookup_intervals (intervals args) (clock_start clocked)
            (clock_end clocked) = Some m) as Hm.
  { rewrite match_lookup_intervals_spec. unfold matcher_spec.
    by rewrite Hwin. }
  rewrite (clock_body_matched _ _ _ _ _ m) by done. cbv zeta.
  rewrite (find_jira_issue_Some_truthy _ _ key) by done.
  rewrite Hkey. change (default "" (Some key)) with key.
  cbn [andb negb]. rewrite Hsent. cbn [fst snd].
  split_and!; try done.
  - cbn [totals]. rewrite day_stats_add_day_added, decide_True by done.
    cbn [day_added_time]. rewrite day_stats_entry_totals.
    by rewrite decide_True.
  - by destruct (gate_sent _ _ _ _ _ _ _ Hsent) as (ws & _ & _ & -> & _).
  - intros Hwf Hlate. unfold m. cbn [start end_].
    apply find_some in Hwin as [_ Hin]. unfold contains in Hin.
    apply andb_prop in Hin as [_ Hlt%Z.ltb_lt].
    rewrite Z.min_r by lia. split; [done|].
    pose proof (td_seconds_le (end_ window - clock_start clocked)).
    unfold clock_wf in Hwf. lia.
Qed.

(** The sample entry (10:00 to 13:00) against a window that ends at 12:00:
    three hours are added, a work-log of two hours is created. *)
Lemma added_time_is_recorded_duration_witness :
  let r := mkRun no_totals fresh_server in
  let r' := snd (clock_body short_args sample_settings sample_review false
                   sample_clock r) in
  day_added_time (day_stats (totals r') 1) = 0 + 10800
  /\ writes (calls (server r'))
     = [("PROJ-42", mkWorklog 122400 7200 "PROJ-42 review")]
  /\ 7200 < 10800.
Proof.
  pose proof (added_time_is_recorded_duration short_args sample_settings
                sample_review sample_clock (mkRun no_totals fresh_server)
                (mkInterval 0 129600) "PROJ-42"
                (snd (send_interval_to_jira "PROJ-42"
                        (mkInterval 122400 129600) "PROJ-42 review" true true
                        fresh_server))
                eq_refl eq_refl eq_refl) as H.
  cbv zeta in H. destruct H as (_ & Hsrv & Hadd & Hw & Hlt).
  cbv zeta. split; [exact Hadd|]. split.
  - rewrite Hsrv. exact Hw.
  - apply Hlt; [reflexivity|reflexivity].
Defined.

(** ** Idempotence of a run *)

Lemma extends_refl j : extends j j.
Proof.
  intros key. destruct (worklog_store j !! key) as [ws|]; [|done].
  exists ws. auto.
Qed.

Lemma extends_trans j1 j2 j3 : extends j1 j2 -> extends j2 j3 -> extends j1 j3.
Proof.
  intros H12 H23 key. specialize (H12 key). specialize (H23 key).
  destruct (worklog_store j1 !! key) as [ws1|].
  - destruct H12 as (ws2 & Hk2 & Hin2). rewrite Hk2 in H23.
    destruct H23 as (ws3 & Hk3 & Hin3). exists ws3. auto.
  - by rewrite H12 in H23.
Qed.

Lemma extends_store_l j1 j1' j2 :
  worklog_store j1' = worklog_store j1 -> extends j1 j2 -> extends j1' j2.
Proof. intros Hs H key. specialize (H key). by rewrite Hs. Qed.

Lemma extends_store_r j1 j2 j2' :
  worklog_store j2' = worklog_store j2 -> extends j1 j2 -> extends j1 j2'.
Proof. intros Hs H key. specialize (H key). by rewrite Hs. Qed.

Lemma extends_add_worklog j key ws w cs :
  worklog_store j !! key = Some ws ->
  extends j (mkJira (<[key := (ws ++ [w])%list]> (worklog_store j)) cs).
Proof.
  intros Hkey key'. cbn [worklog_store].
  destruct (decide (key = key')) as [<-|Hne].
  - rewrite Hkey, lookup_insert_eq. exists (ws ++ [w])%list.
    split; [done|]. intros w' Hw'. apply in_or_app. by left.
  - rewrite lookup_insert_ne by done.
    destruct (worklog_store j !! key') as [ws'|]; [|done].
    exists ws'. auto.
Qed.

Lemma already_submitted_mono ws ws' t :
  (forall w, In w ws -> In w ws') ->
  already_submitted ws t = true -> already_submitted ws' t = true.
Proof.
  intros Hsub. rewrite !already_submitted_In.
  intros (w & Hw & Ht). exists w. auto.
Qed.

Lemma gate_outcome_known_quiet key interval description s j ws :
  worklog_store j !! key = Some ws ->
  already_submitted ws (start interval) = true
  \/ s && negb (td_seconds (end_ interval - start interval) =? 0) = false ->
  gate_outcome key interval description true s j
  = (Ok false, received (CallWorklogs key) (received (CallIssue key) j)).
Proof.
  intros Hkey Hcase. unfold gate_outcome. cbv zeta. rewrite Hkey.
  destruct (already_submitted ws (start interval)); [done|].
  by destruct Hcase as [?| ->].
Qed.

Lemma gate_outcome_unknown key interval description s j :
  worklog_store j !! key = None ->
  gate_outcome key interval description true s j
  = (Raised, received (CallIssue key) j).
Proof. intros Hkey. unfold gate_outcome. by rewrite Hkey. Qed.

Lemma writes_received_issue key j :
  writes (calls (received (CallIssue key) j)) = writes (calls j).
Proof. cbn. rewrite writes_app. cbn. by rewrite app_nil_r. Qed.

Lemma writes_received_worklogs key j :
  writes (calls (received (CallWorklogs key) j)) = writes (calls j).
Proof. cbn. rewrite writes_app. cbn. by rewrite app_nil_r. Qed.

(** The gate with [query_jira] set is settled. *)
Lemma send_interval_to_jira_settled key interval description s :
  settled (fun j => j)
    (send_interval_to_jira key interval description true s).
Proof.
  split.
  - intros j. rewrite send_interval_to_jira_outcome. unfold gate_outcome.
    cbv zeta.
    destruct (worklog_store j !! key) as [ws|] eqn:Hkey;
      [|by apply (extends_store_r _ j), extends_refl].
    destruct (already_submitted ws (start interval));
      [by apply (extends_store_r _ j), extends_refl|].
    destruct (s && negb _);
      [|by apply (extends_store_r _ j), extends_refl].
    by apply extends_add_worklog.
  - intros j j'. unfold quiet.
    rewrite !send_interval_to_jira_outcome. intros Hext.
    destruct (worklog_store j !! key) as [ws|] eqn:Hkey.
    + assert (exists ws',
                 worklog_store j' !! key = Some ws'
                 /\ (already_submitted ws' (start interval) = true
                     \/ s && negb (td_seconds
                                     (end_ interval - start interval) =? 0)
                        = false)) as (ws' & Hk' & Hcase).
      { revert Hext. unfold gate_outcome. cbv zeta. rewrite Hkey.
        destruct (already_submitted ws (start interval)) eqn:Hdup;
          [|destruct (s && negb _) eqn:Hsend]; intros Hext;
          specialize (Hext key); cbn [snd worklog_store received] in Hext;
          rewrite ?Hkey, ?lookup_insert_eq in Hext;
          destruct Hext as (ws' & Hk' & Hsub); exists ws'; split; try done.
        - left. by apply (already_submitted_mono ws).
        - left. apply already_submitted_In. eexists.
          split; [apply Hsub, in_or_app; right; by left|done].
        - by right. }
      rewrite (gate_outcome_known_quiet _ _ _ _ j' ws') by done.
      cbn [fst snd]. split; [split; [done|]|].
      * by rewrite writes_received_worklogs, writes_received_issue.
      * unfold gate_outcome. cbv zeta. rewrite Hkey.
        destruct (already_submitted ws (start interval)); [done|].
        by destruct (s && negb _).
    + rewrite (gate_outcome_unknown _ _ _ _ j) in Hext by done.
      specialize (Hext key). cbn [snd worklog_store received] in Hext.
      rewrite Hkey in Hext.
      rewrite (gate_outcome_unknown _ _ _ _ j') by done.
      cbn [fst snd]. split; [split; [done|]|done].
      by rewrite writes_received_issue.
Qed.

Lemma settled_ret {S} (server_of : S -> Jira) :
  settled server_of (mret tt : M S unit).
Proof.
  split; [intros s; apply extends_refl|].
  intros s s' _. by split.
Qed.

Lemma settled_for_each {S A} (server_of : S -> Jira)
    (body : A -> M S unit) (l : list A) :
  (forall x, settled server_of (body x)) ->
  settled server_of (for_each body l).
Proof.
  intros Hbody. induction l as [|x l [IHmono IHstable]];
    [apply settled_ret|].
  destruct (Hbody x) as [Hmono Hstable].
  split.
  - intros s. rewrite for_each_cons. specialize (Hmono s).
    destruct (body x s) as [[[]|] s1]; [|done].
    eapply extends_trans; [exact Hmono | apply IHmono].
  - intros s s'. unfold quiet. rewrite !for_each_cons.
    specialize (Hmono s). specialize (Hstable s s').
    destruct (body x s) as [[[]|] s1]; cbn [fst snd] in *.
    + intros Hext.
      destruct Hstable as [[Hst Hwr] _];
        [eapply extends_trans; [apply IHmono | exact Hext]|].
      destruct (body x s') as [[[]|] s1']; cbn [fst snd] in *.
      * destruct (IHstable s1 s1') as [[Hst2 Hwr2] Hraise];
          [by apply (extends_store_r _ (server_of s'))|].
        split; [split; congruence | done].
      * done.
    + intros Hext. destruct Hstable as [[Hst Hwr] Hraise]; [done|].
      specialize (Hraise eq_refl).
      destruct (body x s') as [[[]|] s1']; [done|]. by cbn.
Qed.

(** The loop body with [query_jira] set is settled. *)
Lemma clock_body_settled args settings node skip clocked :
  query_jira args = true ->
  settled server (clock_body args settings node skip clocked).
Proof.
  intros Hq.
  destruct (match_lookup_intervals (intervals args) (clock_start clocked)
              (clock_end clocked)) as [m|] eqn:Hm.
  - destruct (send_interval_to_jira_settled
                (default "" (find_jira_issue node settings)) m (heading node)
                (args_send_data_to_jira args)) as [Hmono Hstable].
    split.
    + intros r. rewrite (clock_body_matched _ _ _ _ _ m) by done. cbv zeta.
      destruct (truthy _ && negb skip); [|apply extends_refl].
      rewrite Hq. specialize (Hmono (server r)).
      by destruct (send_interval_to_jira _ _ _ _ _ _) as [[[]|] j'].
    + intros r r'. unfold quiet.
      rewrite !(clock_body_matched _ _ _ _ _ m) by done. cbv zeta.
      destruct (truthy _ && negb skip); [|done].
      rewrite Hq. specialize (Hstable (server r) (server r')).
      unfold quiet in Hstable.
      destruct (send_interval_to_jira _ _ _ _ _ (server r)) as [[[]|] j1];
        destruct (send_interval_to_jira _ _ _ _ _ (server r'))
        as [[[]|] j1']; cbn [fst snd server] in *; intros Hext;
        destruct (Hstable Hext) as [Hquiet Hraise]; split; try done;
        by specialize (Hraise eq_refl).
  - split.
    + intros r. rewrite clock_body_unmatched by done. apply extends_refl.
    + intros r r' _. unfold quiet. by rewrite !clock_body_unmatched.
Qed.

Lemma node_body_settled args settings node :
  query_jira args = true ->
  settled server (node_body args settings node).
Proof.
  intros Hq. unfold node_body. cbv zeta.
  destruct (clock node) as [|c cs] eqn:Hclock; [apply settled_ret|].
  apply settled_for_each. intros clocked. by apply clock_body_settled.
Qed.

Lemma send_data_loop_settled load args settings :
  query_jira args = true ->
  settled server (send_data_loop load args settings).
Proof.
  intros Hq. unfold send_data_loop.
  apply settled_for_each. intros path.
  apply settled_for_each. intros node. by apply node_body_settled.
Qed.

Lemma for_each_ext {S A} (body body' : A -> M S unit) (l : list A) :
  (forall x s, In x l -> body x s = body' x s) ->
  forall s, for_each body l s = for_each body' l s.
Proof.
  induction l as [|x l IH]; intros Hbody s; [done|].
  rewrite !for_each_cons, (Hbody x s) by (by left).
  destruct (body' x s) as [[[]|] s1]; [|done].
  apply IH. intros y s' Hy. apply Hbody. by right.
Qed.

Lemma for_each_Forall2 {S A} (E : A -> A -> Prop) (body : A -> M S unit)
    (l l' : list A) :
  Forall2 E l l' ->
  (forall x x' s, E x x' -> body x s = body x' s) ->
  forall s, for_each body l s = for_each body l' s.
Proof.
  intros Hl Hbody. induction Hl as [|x x' l l' Hx _ IH]; intros s; [done|].
  rewrite !for_each_cons, (Hbody x x' s Hx).
  by destruct (body x' s) as [[[]|] s1].
Qed.

Lemma Forall2_conj {A B} (P Q : A -> B -> Prop) (l : list A) (l' : list B) :
  Forall2 P l l' -> Forall2 Q l l' ->
  Forall2 (fun x y => P x y /\ Q x y) l l'.
Proof.
  intros HP. induction HP as [|x y l l' Hxy _ IH]; intros HQ;
    inversion HQ; subst; constructor; auto.
Qed.

Lemma same_node_fields n n' :
  same_node n n' ->
  heading n = heading n' /\ Permutation (tags n) (tags n')
  /\ properties n = properties n' /\ clock n = clock n'.
Proof. destruct n, n'. cbn. tauto. Qed.

(** A node's part of the run depends on the node through its heading, its
    properties, its clock entries and the issue it resolves to. *)
Lemma node_body_same_resolution args settings n n' r :
  same_node n n' ->
  find_jira_issue n settings = find_jira_issue n' settings ->
  node_body args settings n r = node_body args settings n' r.
Proof.
  intros (Hh & _ & Hp & Hc)%same_node_fields Hf.
  unfold node_body. cbv zeta. rewrite Hp, Hc.
  destruct (clock n') as [|c0 cs0]; [done|].
  apply for_each_ext. intros c s _. unfold clock_body. by rewrite Hh, Hf.
Qed.

Lemma send_data_loop_same_resolution load load' args settings r :
  same_files settings load load' ->
  same_resolution settings load load' ->
  send_data_loop load' args settings r = send_data_loop load args settings r.
Proof.
  intros Hfiles Hres. unfold send_data_loop. symmetry.
  apply for_each_ext. intros path s Hpath.
  apply (for_each_Forall2
           (fun n n' => same_node n n'
                        /\ find_jira_issue n settings
                           = find_jira_issue n' settings)).
  - apply Forall2_conj; [by apply Hfiles | by apply Hres].
  - intros n n' s' [Hn Hf]. by apply node_body_same_resolution.
Qed.

(** C9, as amended.  With [query_jira] set, a second run of the driver over
    the same documents, windows and settings, started on the server as the
    first run left it, sends no create-worklog request and leaves the
    stored work-logs as they are, provided the second run resolves every
    node to the issue the first run resolved it to.  (The two runs may
    take the tags of a node in different orders; a node with two tags
    configured for different issues is where the resolutions can part.)
    The reason is in the gate: the work-log it creates for an interval
    starts at the interval's start, so the query of the next call for the
    same issue finds it. *)
Theorem second_run_writes_nothing (load load' : string -> list OutlineNode)
    (windows : list Interval) (send : bool) (settings : Settings)
    (j : Jira) :
  same_files settings load load' ->
  same_resolution settings load load' ->
  let args := mkArgs windows true send in
  let first := snd (send_data_to_jira load args settings j) in
  let second :=
    snd (send_data_to_jira load' args settings (server first)) in
  worklog_store (server second) = worklog_store (server first)
  /\ writes (calls (server second)) = writes (calls (server first))
  /\ (forall key interval description j1 j2,
        send_interval_to_jira key interval description true send j1
        = (Ok true, j2) ->
        (exists ws, worklog_store j2 !! key = Some ws
                    /\ already_submitted ws (start interval) = true)
        /\ fst (send_interval_to_jira key interval description true send j2)
           = Ok false).
Proof.
  intros Hfiles Hres. cbv zeta. unfold send_data_to_jira.
  rewrite (send_data_loop_same_resolution load load') by done.
  destruct (send_data_loop_settled load (mkArgs windows true send) settings
              eq_refl) as [_ Hstable].
  set (first := snd (send_data_loop load (mkArgs windows true send) settings
                       (mkRun no_totals j))).
  destruct (Hstable (mkRun no_totals j) (mkRun no_totals (server first)))
    as [[Hst Hwr] _]; [apply extends_refl|].
  split; [exact Hst|]. split; [exact Hwr|].
  intros key interval description j1 j2 Hsent.
  destruct (gate_sent _ _ _ _ _ _ _ Hsent) as (ws & Hk & Hst2 & _).
  assert (worklog_store j2 !! key
          = Some (ws ++ [mkWorklog (start interval)
                           (td_seconds (end_ interval - start interval))
                           description])%list) as Hk2
    by (rewrite Hst2; apply lookup_insert_eq).
  assert (already_submitted
            (ws ++ [mkWorklog (start interval)
                      (td_seconds (end_ interval - start interval))
                      description])%list (start interval) = true) as Hdup.
  { apply already_submitted_In. eexists.
    split; [apply in_or_app; right; by left|done]. }
  split; [eauto|].
  rewrite send_interval_to_jira_outcome.
  by rewrite (gate_outcome_known_quiet _ _ _ _ _ _ Hk2) by auto.
Qed.

Lemma same_node_task : same_node task_ab task_ba.
Proof. cbn. split_and!; try done. apply perm_swap. Qed.

(** The task with tags "a" and "b" where only "a" is configured: the first
    run takes the tags as a, b and creates the work-log on X-1; the second
    run takes them as b, a, resolves to X-1 again and creates none. *)
Lemma second_run_writes_nothing_witness :
  let first := snd (send_data_to_jira (fun _ => [task_ab]) sample_args
                      one_issue_settings two_issue_server) in
  let second := snd (send_data_to_jira (fun _ => [task_ba])
                       sample_args one_issue_settings (server first)) in
  writes (calls (server first)) = [("X-1", mkWorklog 122400 10800 "task")]
  /\ writes (calls (server second))
     = [("X-1", mkWorklog 122400 10800 "task")].
Proof.
  cbv zeta. split; [reflexivity|].
  etransitivity;
    [refine (proj1 (proj2 (second_run_writes_nothing
                             (fun _ => [task_ab]) (fun _ => [task_ba])
                             [sample_window] true one_issue_settings
                             two_issue_server _ _)))
    | reflexivity].
  - intros path _. constructor; [exact same_node_task | constructor].
  - intros path _. constructor; [reflexivity | constructor].
Defined.

(** C9, as stated, fails.  The same task with both tags configured: the
    two runs read the same document and differ only in the order in which
    they take its tags.  The first run resolves the task to X-1 and
    creates its work-log there; the second run resolves it to X-2, finds
    no work-log under that issue and creates one. *)
Lemma second_run_other_tag_order_writes :
  same_files two_issue_settings (fun _ => [task_ab]) (fun _ => [task_ba])
  /\ (let first := snd (send_data_to_jira (fun _ => [task_ab]) sample_args
                         two_issue_settings two_issue_server) in
      let second := snd (send_data_to_jira (fun _ => [task_ba]) sample_args
                          two_issue_settings (server first)) in
      writes (calls (server first))
      = [("X-1", mkWorklog 122400 10800 "task")]
      /\ writes (calls (server second))
         = [("X-1", mkWorklog 122400 10800 "task");
            ("X-2", mkWorklog 122400 10800 "task")]
      /\ writes (calls (server second)) <> writes (calls (server first))).
Proof.
  split.
  - intros path _. constructor; [exact same_node_task | constructor].
  - cbv zeta. split_and!; [reflexivity | reflexivity | discriminate].
Qed.

(** * Further properties *)

(** ** Interval matcher *)

Lemma match_lookup_intervals_Some ws cs ce m :
  match_lookup_intervals ws cs ce = Some m ->
  exists w, In w ws /\ contains w cs = true
            /\ m = mkInterval cs (Z.min ce (end_ w)).
Proof.
  rewrite match_lookup_intervals_spec. unfold matcher_spec, first_containing.
  destruct (find _ ws) as [w|] eqn:Hfind; [|done].
  apply find_some in Hfind as [Hin Hc]. intros [= <-]. eauto.
Qed.

Lemma match_lookup_intervals_None ws cs ce :
  (forall w, In w ws -> contains w cs = false) ->
  match_lookup_intervals ws cs ce = None.
Proof.
  induction ws as [|w ws IH]; intros Hnone; [done|].
  rewrite match_lookup_intervals_cons, (Hnone w) by (by left).
  apply IH. intros w' Hw'. apply Hnone. by right.
Qed.

(** X1.  A matched interval starts at the clock start and lies inside both
    the recorded entry and one of the requested windows: for an entry that
    does not end before it starts, the match ends between the clock start
    and the clock end and not after the end of that window, so the time
    matched is never negative and never longer than the time recorded. *)
Theorem matched_interval_within_entry_and_window (ws : list Interval)
    (cs ce : Z) (m : Interval) :
  match_lookup_intervals ws cs ce = Some m ->
  cs <= ce ->
  start m = cs
  /\ cs <= end_ m <= ce
  /\ 0 <= end_ m - start m <= ce - cs
  /\ exists w, In w ws /\ start w <= start m < end_ w
               /\ end_ m <= end_ w.
Proof.
  intros Hm Hle.
  apply match_lookup_intervals_Some in Hm as (w & Hin & Hc & ->).
  unfold contains in Hc. apply andb_prop in Hc as [H1%Z.leb_le H2%Z.ltb_lt].
  cbn [start end_]. split_and!; try lia.
  exists w. split_and!; try done; lia.
Qed.

(** The sample entry against a window that ends at 12:00. *)
Lemma matched_interval_within_entry_and_window_witness :
  start (mkInterval 122400 129600) = 122400
  /\ 122400 <= end_ (mkInterval 122400 129600) <= 133200
  /\ 0 <= end_ (mkInterval 122400 129600) - start (mkInterval 122400 129600)
     <= 133200 - 122400
  /\ exists w, In w [mkInterval 0 129600]
               /\ start w <= start (mkInterval 122400 129600) < end_ w
               /\ end_ (mkInterval 122400 129600) <= end_ w.
Proof.
  apply (matched_interval_within_entry_and_window [mkInterval 0 129600]
           122400 133200 (mkInterval 122400 129600));
    [reflexivity | lia].
Defined.

Lemma contains_empty_window w t :
  end_ w <= start w -> contains w t = false.
Proof.
  intros He. unfold contains.
  destruct (Z.leb_spec (start w) t), (Z.ltb_spec t (end_ w)); try done. lia.
Qed.

(** X2.  A window whose end is not after its start (the parser accepts such
    tokens) matches nothing: dropping the empty windows from the list never
    changes the match, and a list of empty windows matches no entry. *)
Theorem empty_windows_match_nothing (ws : list Interval) (cs ce : Z) :
  match_lookup_intervals
    (List.filter (fun w => start w <? end_ w) ws) cs ce
  = match_lookup_intervals ws cs ce
  /\ ((forall w, In w ws -> end_ w <= start w) ->
      match_lookup_intervals ws cs ce = None).
Proof.
  split.
  - induction ws as [|w ws IH]; [done|]. cbn [List.filter].
    destruct (Z.ltb_spec (start w) (end_ w)).
    + rewrite !match_lookup_intervals_cons. by rewrite IH.
    + rewrite match_lookup_intervals_cons, contains_empty_window by done.
      exact IH.
  - intros Hempty. apply match_lookup_intervals_None.
    intros w Hw. by apply contains_empty_window, Hempty.
Qed.

Lemma empty_windows_match_nothing_witness :
  match_lookup_intervals [mkInterval 172800 0; mkInterval 5 5] 7 30 = None.
Proof.
  apply (proj2 (empty_windows_match_nothing
                  [mkInterval 172800 0; mkInterval 5 5] 7 30)).
  intros w [<- | [<- | []]]; cbn; lia.
Defined.

Lemma find_unique {A} (P : A -> bool) (l : list A) (x : A) :
  (forall a b, In a l -> In b l -> P a = true -> P b = true -> a = b) ->
  In x l -> P x = true -> List.find P l = Some x.
Proof.
  intros Huniq Hin Hx. destruct (List.find P l) as [y|] eqn:Hfind.
  - apply find_some in Hfind as [Hy HPy]. f_equal. by apply Huniq.
  - by rewrite (find_none _ _ Hfind x Hin) in Hx.
Qed.

(** X3.  For windows of which no two different ones overlap, the order in
    which they are given does not matter: every permutation of the list
    gives the same match. *)
Theorem disjoint_windows_order_irrelevant (ws ws' : list Interval)
    (cs ce : Z) :
  disjoint_windows ws ->
  Permutation ws ws' ->
  match_lookup_intervals ws' cs ce = match_lookup_intervals ws cs ce.
Proof.
  intros Hdis Hperm. rewrite !match_lookup_intervals_spec.
  unfold matcher_spec, first_containing.
  destruct (List.find (fun ivl => contains ivl cs) ws) as [w|] eqn:Hfind.
  - apply find_some in Hfind as [Hin Hc].
    rewrite (find_unique _ ws' w); [done| |by eapply Permutation_in|done].
    intros a b Ha Hb. apply Hdis; by eapply Permutation_in;
      [apply Permutation_sym|].
  - destruct (List.find _ ws') as [w'|] eqn:Hfind'; [|done].
    apply find_some in Hfind' as [Hin' Hc'].
    apply (Permutation_in _ (Permutation_sym Hperm)) in Hin'.
    by rewrite (find_none _ _ Hfind w' Hin') in Hc'.
Qed.

(** January and March of 2024 as windows, in either order, against an
    entry on 2024-03-02. *)
Lemma disjoint_windows_order_irrelevant_witness :
  match_lookup_intervals [mkInterval 5184000 7862400; mkInterval 0 2678400]
    5300000 5303600
  = match_lookup_intervals [mkInterval 0 2678400; mkInterval 5184000 7862400]
      5300000 5303600.
Proof.
  apply (disjoint_windows_order_irrelevant
           [mkInterval 0 2678400; mkInterval 5184000 7862400]
           [mkInterval 5184000 7862400; mkInterval 0 2678400]).
  - intros w1 w2 t [<- | [<- | []]] [<- | [<- | []]]; unfold contains;
      cbn [start end_]; intros H1 H2; try done;
      apply andb_prop in H1 as [?%Z.leb_le ?%Z.ltb_lt];
      apply andb_prop in H2 as [?%Z.leb_le ?%Z.ltb_lt]; lia.
  - apply perm_swap.
Defined.

(** ** Issue resolver *)

(** X4.  The resolver never returns the empty string: its result is no
    match or a non-empty issue id, whatever the properties, the patterns,
    the tags and the ancestors yield. *)
Theorem resolved_issue_never_empty (node : OutlineNode)
    (settings : Settings) :
  find_jira_issue node settings = None
  \/ exists key, find_jira_issue node settings = Some key /\ key <> "".
Proof.
  destruct (truthy (find_jira_issue node settings)) eqn:Ht.
  - right. destruct (find_jira_issue node settings) as [key|]; [|done].
    exists key. split; [done|]. intros ->. done.
  - left. by apply find_jira_issue_falsy.
Qed.

Lemma first_known_tag_app before t after known :
  (forall x, In x before -> known !! x = None) ->
  first_known_tag (before ++ t :: after) known
  = match known !! t with
    | Some issue => Some issue
    | None => first_known_tag after known
    end.
Proof.
  induction before as [|x before IH]; intros Hnone; [done|].
  cbn. rewrite (Hnone x) by (by left). apply IH.
  intros y Hy. apply Hnone. by right.
Qed.

(** X5.  The tag lookup stops at the first tag of the node that is a key of
    the tag table, also when the issue configured for it is empty: the
    tags after it are not consulted, and a node without a property and
    without a heading match falls through to its parent. *)
Theorem first_known_tag_decides (node : OutlineNode) (settings : Settings)
    (before after : list string) (t : string) (issue : string) :
  tags node = (before ++ t :: after)%list ->
  (forall x, In x before -> settings_tags settings !! x = None) ->
  settings_tags settings !! t = Some issue ->
  find_issue_by_tag node settings = Some issue
  /\ (issue = "" ->
      truthy (find_issue_in_property node settings) = false ->
      truthy (find_issue_in_heading node settings) = false ->
      find_jira_issue node settings = find_issue_in_parent node settings).
Proof.
  intros Htags Hbefore Ht.
  assert (find_issue_by_tag node settings = Some issue) as Hfound.
  { unfold find_issue_by_tag. rewrite Htags, first_known_tag_app by done.
    by rewrite Ht. }
  split; [done|]. intros -> Hp Hh.
  apply find_jira_issue_by_parent; try done. by rewrite Hfound.
Qed.

(** A node tagged "idle" and "ops" where "idle" is configured without an
    issue: the issue of "ops" is not used, the parent's property is. *)
Lemma first_known_tag_decides_witness :
  find_issue_by_tag (mkNode "notes" ["idle"; "ops"] ∅ (Some sample_top) [])
    (mkSettings [project_regexp "PROJ"]
       {[ "idle" := ""; "ops" := "OPS-3" ]} [])
  = Some ""
  /\ find_jira_issue (mkNode "notes" ["idle"; "ops"] ∅ (Some sample_top) [])
       (mkSettings [project_regexp "PROJ"]
          {[ "idle" := ""; "ops" := "OPS-3" ]} [])
     = Some "PROJ-9".
Proof.
  destruct (first_known_tag_decides
              (mkNode "notes" ["idle"; "ops"] ∅ (Some sample_top) [])
              (mkSettings [project_regexp "PROJ"]
                 {[ "idle" := ""; "ops" := "OPS-3" ]} [])
              [] ["ops"] "idle" "")
    as [Hfound Hfall]; [reflexivity | intros x [] | reflexivity |].
  split; [exact Hfound|].
  rewrite Hfall; reflexivity.
Defined.

Lemma string_app_cons (x : ascii) (a b : string) :
  String x a ++ b = String x (a ++ b).
Proof. reflexivity. Qed.

Lemma string_app_nil (a : string) : "" ++ a = a.
Proof. reflexivity. Qed.

Lemma string_app_assoc (a b c : string) : (a ++ b) ++ c = a ++ b ++ c.
Proof.
  induction a as [|x a IH]; [done|].
  rewrite !string_app_cons. by rewrite IH.
Qed.

Lemma strip_prefix_app p s : strip_prefix p (p ++ s) = Some s.
Proof.
  induction p as [|a p IH]; [done|].
  rewrite string_app_cons. cbn [strip_prefix]. by rewrite Ascii.eqb_refl.
Qed.

Lemma strip_prefix_Some p s r : strip_prefix p s = Some r -> s = p ++ r.
Proof.
  revert s. induction p as [|a p IH]; intros s; cbn.
  - by intros [= ->].
  - destruct s as [|b s]; [done|].
    destruct (Ascii.eqb_spec a b) as [->|]; [|done].
    intros Hr. by rewrite (IH _ Hr).
Qed.

Lemma take_digits_all_digits s : all_digits (take_digits s) = true.
Proof.
  induction s as [|c s IH]; [done|]. cbn.
  destruct (is_digit c) eqn:Hc; [|done]. cbn. by rewrite Hc.
Qed.

Lemma match_here_shape key s m :
  match_here key s = Some m ->
  exists ds, m = key ++ "-" ++ ds /\ ds <> "" /\ all_digits ds = true.
Proof.
  unfold match_here. destruct (strip_prefix _ s) as [r|]; [|done].
  destruct (String.eqb_spec (take_digits r) ""); [done|].
  intros [= <-]. eexists. split_and!; [done|done|].
  apply take_digits_all_digits.
Qed.

Lemma findall_from_shape key n s m :
  In m (findall_from key n s) ->
  exists ds, m = key ++ "-" ++ ds /\ ds <> "" /\ all_digits ds = true.
Proof.
  revert n. induction s as [|c s IH]; intros n; [done|].
  cbn [findall_from]. destruct n as [|n]; [|apply IH].
  destruct (match_here key (String c s)) as [m'|] eqn:Hhere; [|apply IH].
  intros [<- | Hin]; [by eapply match_here_shape | by eapply IH].
Qed.

Lemma findall_from_occurrence key before d rest :
  is_digit d = true ->
  findall_from key 0 (before ++ key ++ "-" ++ String d rest) <> [].
Proof.
  intros Hd.
  assert (forall tail, match_here key (key ++ "-" ++ String d tail) <> None)
    as Hhere.
  { intros tail. unfold match_here.
    rewrite <- string_app_assoc, strip_prefix_app. cbn [take_digits].
    rewrite Hd. done. }
  induction before as [|c before IH].
  - rewrite string_app_nil. specialize (Hhere rest).
    destruct (key ++ "-" ++ String d rest) as [|c s] eqn:Hs.
    + by destruct key.
    + cbn [findall_from].
      by destruct (match_here key (String c s)).
  - rewrite string_app_cons. cbn [findall_from].
    by destruct (match_here key _).
Qed.

Lemma first_findall_map_shape keys h m :
  first_findall (map project_regexp keys) h = Some m ->
  exists key ds, In key keys /\ m = key ++ "-" ++ ds /\ ds <> ""
                 /\ all_digits ds = true.
Proof.
  induction keys as [|key keys IH]; [done|]. cbn [map first_findall].
  destruct (project_regexp key h) as [|m' ms] eqn:Hre.
  - intros Hm. destruct (IH Hm) as (k & ds & Hk & Hrest).
    exists k, ds. split; [by right|done].
  - intros [= <-].
    destruct (findall_from_shape key 0 h m') as (ds & Hds).
    { unfold project_regexp in Hre. rewrite Hre. by left. }
    exists key, ds. split; [by left|done].
Qed.

Lemma first_findall_map_occurs keys key h :
  In key keys -> project_regexp key h <> [] ->
  first_findall (map project_regexp keys) h <> None.
Proof.
  induction keys as [|k keys IH]; [done|]. cbn [map first_findall].
  intros [-> | Hin] Hne.
  - by destruct (project_regexp key h).
  - destruct (project_regexp k h); [by apply IH|done].
Qed.

Lemma key_issue_not_empty key ds : String.eqb (key ++ "-" ++ ds) "" = false.
Proof. by destruct key. Qed.

(** X6.  With the patterns built from plain project keys, an issue found in
    a heading is always one of the keys followed by a hyphen and one or
    more decimal digits; and a heading that contains, anywhere, a key
    followed by a hyphen and a digit makes the heading strategy succeed, so
    the node resolves without looking at its tags or ancestors: to its
    [jira-task] property when that is non-empty, and to the heading match
    otherwise. *)
Theorem heading_issue_is_key_and_number (node : OutlineNode)
    (settings : Settings) (keys : list string) :
  project_regexps settings = map project_regexp keys ->
  Forall (fun key => plain_key key = true) keys ->
  (forall m,
      find_issue_in_heading node settings = Some m ->
      exists key ds, In key keys /\ m = key ++ "-" ++ ds /\ ds <> ""
                     /\ all_digits ds = true)
  /\ (forall key before d rest,
        In key keys -> is_digit d = true ->
        heading node = before ++ key ++ "-" ++ String d rest ->
        truthy (find_issue_in_heading node settings) = true
        /\ find_jira_issue node settings
           = (if truthy (find_issue_in_property node settings)
              then find_issue_in_property node settings
              else find_issue_in_heading node settings)
        /\ find_jira_issue node settings <> None).
Proof.
  intros Hre _. split.
  - intros m. unfold find_issue_in_heading. rewrite Hre.
    apply first_findall_map_shape.
  - intros key before d rest Hkey Hd Hhead.
    assert (truthy (find_issue_in_heading node settings) = true) as Hh.
    { unfold find_issue_in_heading. rewrite Hre.
      destruct (first_findall _ (heading node)) as [m|] eqn:Hm.
      - destruct (first_findall_map_shape _ _ _ Hm)
          as (k & ds & _ & -> & _).
        cbn [truthy]. by rewrite key_issue_not_empty.
      - exfalso. eapply first_findall_map_occurs; [exact Hkey| |exact Hm].
        rewrite Hhead. by apply findall_from_occurrence. }
    split; [done|].
    destruct (truthy (find_issue_in_property node settings)) eqn:Hp.
    + rewrite find_jira_issue_by_property by done. split; [done|].
      intros Hnone. by rewrite Hnone in Hp.
    + rewrite find_jira_issue_by_heading by done. split; [done|].
      intros Hnone. by rewrite Hnone in Hh.
Qed.

(** [sample_override]: the heading names PROJ-42 and the property PROJ-7;
    the heading strategy would succeed, and the property is returned. *)
Lemma heading_issue_is_key_and_number_witness :
  truthy (find_issue_in_heading sample_override sample_settings) = true
  /\ find_jira_issue sample_override sample_settings
     = (if truthy (find_issue_in_property sample_override sample_settings)
        then find_issue_in_property sample_override sample_settings
        else find_issue_in_heading sample_override sample_settings)
  /\ find_jira_issue sample_override sample_settings <> None.
Proof.
  assert (Forall (fun key => plain_key key = true) ["PROJ"]) as Hplain
    by (constructor; [reflexivity | constructor]).
  apply (proj2 (heading_issue_is_key_and_number sample_override
                  sample_settings ["PROJ"] eq_refl Hplain)
           "PROJ" "" "4"%char "2 review");
    [by left | reflexivity | reflexivity].
Defined.

(** ** Submission gate *)

(** X7.  The requests of a call of the gate that returns, in order: with
    [query_jira] set, one fetch of the issue and one listing of its
    work-logs; without it, a fetch of the issue only on the way to a
    create; and a create request, as the last request, exactly when the
    call returns [True].  So a call that returns has fetched the issue at
    most once, has listed the work-logs only under [query_jira], and has
    sent a create request only after fetching the issue. *)
Theorem gate_request_discipline (key : string) (interval : Interval)
    (description : string) (q s : bool) (j : Jira) (sent : bool) :
  fst (send_interval_to_jira key interval description q s j) = Ok sent ->
  let j' := snd (send_interval_to_jira key interval description q s j) in
  let w := mkWorklog (start interval)
             (td_seconds (end_ interval - start interval)) description in
  calls j'
  = (calls j
     ++ (if q then [CallIssue key; CallWorklogs key]
         else if sent then [CallIssue key] else [])
     ++ (if sent then [CallAddWorklog key w] else []))%list.
Proof.
  cbv zeta. rewrite send_interval_to_jira_outcome. unfold gate_outcome.
  cbv zeta. destruct q.
  - destruct (worklog_store j !! key) as [ws|]; [|done].
    destruct (already_submitted ws (start interval));
      [|destruct (s && negb _)]; cbn [fst snd calls received];
      intros [= <-]; rewrite <- ?app_assoc; by rewrite ?app_nil_r.
  - destruct (s && negb _).
    + destruct (worklog_store j !! key) as [ws|]; [|done].
      cbn [fst snd calls]. by intros [= <-].
    + cbn [fst snd]. intros [= <-]. by rewrite !app_nil_r.
Qed.

(** The sample interval on the fresh server, with the query: fetch, list,
    create. *)
Lemma gate_request_discipline_witness :
  calls (snd (send_interval_to_jira "PROJ-42" (mkInterval 122400 133200)
                "PROJ-42 review" true true fresh_server))
  = [CallIssue "PROJ-42"; CallWorklogs "PROJ-42";
     CallAddWorklog "PROJ-42" sample_worklog].
Proof.
  apply (gate_request_discipline "PROJ-42" (mkInterval 122400 133200)
           "PROJ-42 review" true true fresh_server true eq_refl).
Defined.

Lemma gate_not_sent key interval description q s j :
  fst (send_interval_to_jira key interval description q s j) <> Ok true ->
  worklog_store (snd (send_interval_to_jira key interval description q s j))
  = worklog_store j
  /\ writes (calls (snd (send_interval_to_jira key interval description q s
                           j)))
     = writes (calls j).
Proof.
  rewrite send_interval_to_jira_outcome. unfold gate_outcome. cbv zeta.
  destruct q.
  - destruct (worklog_store j !! key) as [ws|].
    + destruct (already_submitted ws (start interval));
        [|destruct (s && negb _); [done|]]; intros _; cbn [snd];
        by rewrite writes_received_worklogs, writes_received_issue.
    + intros _. cbn [snd]. by rewrite writes_received_issue.
  - destruct (s && negb _); [|done].
    destruct (worklog_store j !! key) as [ws|]; [done|].
    intros _. cbn [snd]. by rewrite writes_received_issue.
Qed.

Lemma gate_true_iff_stored_aux key interval description q s j :
  fst (send_interval_to_jira key interval description q s j) = Ok true
  \/ (worklog_store
        (snd (send_interval_to_jira key interval description q s j))
      = worklog_store j
      /\ writes (calls (snd (send_interval_to_jira key interval description
                               q s j)))
         = writes (calls j)).
Proof.
  destruct (fst (send_interval_to_jira key interval description q s j))
    as [[]|] eqn:Hout; [by left| |];
    right; apply gate_not_sent; by rewrite Hout.
Qed.

(** X8.  Among the calls of the gate that return, [True] is returned
    exactly by those that stored a work-log.  When the gate returns [True],
    [send_data] is set, the issue is known to the server, and one new
    work-log is appended to the work-logs of that issue alone: it starts at
    the interval's start, carries the description, and its time is at
    least one second and less than a day.  When the gate returns [False],
    the stored work-logs and the create requests are what they were. *)
Theorem gate_true_iff_stored (key : string) (interval : Interval)
    (description : string) (q s : bool) (j : Jira) (sent : bool) :
  fst (send_interval_to_jira key interval description q s j) = Ok sent ->
  let j' := snd (send_interval_to_jira key interval description q s j) in
  if sent then
    s = true
    /\ exists ws secs,
        worklog_store j !! key = Some ws
        /\ secs = td_seconds (end_ interval - start interval)
        /\ 0 < secs < 86400
        /\ worklog_store j'
           = <[key := (ws ++ [mkWorklog (start interval) secs
                                description])%list]> (worklog_store j)
        /\ writes (calls j')
           = (writes (calls j)
              ++ [(key, mkWorklog (start interval) secs description)])%list
  else
    worklog_store j' = worklog_store j
    /\ writes (calls j') = writes (calls j).
Proof.
  cbv zeta.
  destruct (send_interval_to_jira key interval description q s j)
    as [out j'] eqn:Hgate. cbn [fst snd]. intros ->.
  destruct sent.
  - destruct (gate_sent _ _ _ _ _ _ _ Hgate)
      as (ws & Hk & Hst & Hw & Hsecs & Hs & _).
    split; [done|].
    exists ws, (td_seconds (end_ interval - start interval)).
    split_and!; try done;
      pose proof (td_seconds_range (end_ interval - start interval)); lia.
  - pose proof (gate_not_sent key interval description q s j) as Hq.
    rewrite Hgate in Hq. by apply Hq.
Qed.

(** The sample interval: sent to the fresh server, it is stored; sent to
    the server that holds it, nothing changes. *)
Lemma gate_true_iff_stored_witness :
  (true = true
   /\ exists ws secs,
       worklog_store fresh_server !! "PROJ-42" = Some ws
       /\ secs = td_seconds (end_ (mkInterval 122400 133200)
                             - start (mkInterval 122400 133200))
       /\ 0 < secs < 86400
       /\ worklog_store
            (snd (send_interval_to_jira "PROJ-42" (mkInterval 122400 133200)
                    "PROJ-42 review" true true fresh_server))
          = <[ "PROJ-42" :=
                 (ws ++ [mkWorklog (start (mkInterval 122400 133200)) secs
                           "PROJ-42 review"])%list]>
              (worklog_store fresh_server)
       /\ writes
            (calls
               (snd (send_interval_to_jira "PROJ-42"
                       (mkInterval 122400 133200) "PROJ-42 review" true true
                       fresh_server)))
          = (writes (calls fresh_server)
             ++ [("PROJ-42",
                  mkWorklog (start (mkInterval 122400 133200)) secs
                    "PROJ-42 review")])%list)
  /\ (worklog_store
        (snd (send_interval_to_jira "PROJ-42" (mkInterval 122400 133200)
                "PROJ-42 review" true true synced_server))
      = worklog_store synced_server
      /\ writes
           (calls
              (snd (send_interval_to_jira "PROJ-42"
                      (mkInterval 122400 133200) "PROJ-42 review" true true
                      synced_server)))
         = writes (calls synced_server)).
Proof.
  split.
  - apply (gate_true_iff_stored "PROJ-42" (mkInterval 122400 133200)
             "PROJ-42 review" true true fresh_server true eq_refl).
  - apply (gate_true_iff_stored "PROJ-42" (mkInterval 122400 133200)
             "PROJ-42 review" true true synced_server false eq_refl).
Defined.

(** X9.  Without the query the gate does not look at the work-logs of the
    issue: called twice for the same interval, with [send_data] set, it
    creates the same work-log twice and never lists the work-logs. *)
Theorem unqueried_gate_duplicates (key : string) (interval : Interval)
    (description : string) (j : Jira) (ws : list Worklog) :
  worklog_store j !! key = Some ws ->
  td_seconds (end_ interval - start interval) <> 0 ->
  let w := mkWorklog (start interval)
             (td_seconds (end_ interval - start interval)) description in
  let once := send_interval_to_jira key interval description false true j in
  let twice :=
    send_interval_to_jira key interval description false true (snd once) in
  fst once = Ok true
  /\ fst twice = Ok true
  /\ worklog_store (snd twice) !! key = Some (ws ++ [w; w])%list
  /\ calls (snd twice)
     = (calls j ++ [CallIssue key; CallAddWorklog key w;
                    CallIssue key; CallAddWorklog key w])%list.
Proof.
  intros Hkey Hsecs. cbv zeta.
  rewrite !send_interval_to_jira_outcome. unfold gate_outcome. cbv zeta.
  destruct (Z.eqb_spec (td_seconds (end_ interval - start interval)) 0);
    [done|].
  cbn [andb negb]. rewrite Hkey. cbn [fst snd worklog_store calls].
  rewrite lookup_insert_eq. cbn [fst snd worklog_store calls].
  rewrite lookup_insert_eq, <- !app_assoc. done.
Qed.

Lemma unqueried_gate_duplicates_witness :
  worklog_store
    (snd (send_interval_to_jira "PROJ-42" (mkInterval 122400 133200)
            "PROJ-42 review" false true
            (snd (send_interval_to_jira "PROJ-42"
                    (mkInterval 122400 133200) "PROJ-42 review" false true
                    fresh_server))))
  !! "PROJ-42"
  = Some [sample_worklog; sample_worklog].
Proof.
  apply (proj1 (proj2 (proj2 (unqueried_gate_duplicates "PROJ-42"
                                (mkInterval 122400 133200) "PROJ-42 review"
                                fresh_server [] eq_refl
                                ltac:(discriminate))))).
Defined.

(** ** Reconciliation driver *)

Section Loops.
Context {S A : Type} (body : A -> M S unit).

(** A property of the state that every iteration keeps holds after the
    loop, whether the loop ran to its end or stopped at a raise. *)
Lemma for_each_preserves (I : S -> Prop) (l : list A) :
  (forall x s, In x l -> I s -> I (snd (body x s))) ->
  forall s, I s -> I (snd (for_each body l s)).
Proof.
  induction l as [|x l IH]; intros Hbody s Hs; [done|].
  rewrite for_each_cons.
  assert (I (snd (body x s))) as Hx by (apply Hbody; [by left|done]).
  destruct (body x s) as [[[]|] s1]; [|done].
  apply IH; [|done]. intros y s' Hy. apply Hbody. by right.
Qed.

(** If no iteration raises from a state with the property, neither does
    the loop. *)
Lemma for_each_total (I : S -> Prop) (l : list A) :
  (forall x s, In x l -> I s ->
               fst (body x s) = Ok tt /\ I (snd (body x s))) ->
  forall s, I s ->
            fst (for_each body l s) = Ok tt /\ I (snd (for_each body l s)).
Proof.
  induction l as [|x l IH]; intros Hbody s Hs; [done|].
  rewrite for_each_cons.
  destruct (Hbody x s) as [Hok Hx]; [by left|done|].
  destruct (body x s) as [[[]|] s1]; [|done].
  apply IH; [|done]. intros y s' Hy. apply Hbody. by right.
Qed.

(** What one iteration establishes when it returns, and every iteration
    keeps, holds after a loop that returns. *)
Lemma for_each_establishes (Q : S -> Prop) (l : list A) (x : A) :
  In x l ->
  (forall s, fst (body x s) = Ok tt -> Q (snd (body x s))) ->
  (forall y s, Q s -> Q (snd (body y s))) ->
  forall s, fst (for_each body l s) = Ok tt -> Q (snd (for_each body l s)).
Proof.
  intros Hin Hx Hkeep. induction l as [|y l IH]; [done|]. intros s.
  rewrite for_each_cons.
  destruct (body y s) as [[[]|] s1] eqn:Hy; [|done].
  destruct Hin as [-> | Hin].
  - intros _. apply for_each_preserves; [by intros; apply Hkeep|].
    specialize (Hx s). rewrite Hy in Hx. by apply Hx.
  - by apply IH.
Qed.
End Loops.

(** The server after the loop body: untouched, or what the gate left when
    it was called for the matched interval and the resolved issue. *)
Lemma clock_body_server args settings node skip clocked r :
  (fst (clock_body args settings node skip clocked r) = Ok tt
   /\ server (snd (clock_body args settings node skip clocked r)) = server r)
  \/ exists m key,
      match_lookup_intervals (intervals args) (clock_start clocked)
        (clock_end clocked) = Some m
      /\ find_jira_issue node settings = Some key
      /\ skip = false
      /\ server (snd (clock_body args settings node skip clocked r))
         = snd (send_interval_to_jira key m (heading node) (query_jira args)
                  (args_send_data_to_jira args) (server r))
      /\ (fst (clock_body args settings node skip clocked r) = Ok tt
          <-> fst (send_interval_to_jira key m (heading node)
                     (query_jira args) (args_send_data_to_jira args)
                     (server r)) <> Raised).
Proof.
  destruct (match_lookup_intervals (intervals args) (clock_start clocked)
              (clock_end clocked)) as [m|] eqn:Hm.
  - rewrite (clock_body_matched _ _ _ _ _ m) by done. cbv zeta.
    destruct (truthy (find_jira_issue node settings)) eqn:Ht;
      [|by left].
    destruct skip; [by left|]. cbn [andb negb].
    destruct (find_jira_issue node settings) as [key|] eqn:Hkey; [|done].
    right. exists m, key. change (default "" (Some key)) with key.
    destruct (send_interval_to_jira _ _ _ _ _ _) as [[[]|] j'];
      cbn [fst snd server]; split_and!; done.
  - rewrite clock_body_unmatched by done. by left.
Qed.

(** X10.  A dry run writes nothing: with [send_data] unset the driver, over
    any files, windows and settings and with or without the query, sends no
    create request and leaves the stored work-logs as they were. *)
Theorem dry_run_writes_nothing (load : string -> list OutlineNode)
    (args : Args) (settings : Settings) (j : Jira) :
  args_send_data_to_jira args = false ->
  let r := snd (send_data_to_jira load args settings j) in
  worklog_store (server r) = worklog_store j
  /\ writes (calls (server r)) = writes (calls j).
Proof.
  intros Hdry. cbv zeta. unfold send_data_to_jira, send_data_loop.
  set (I := fun r : Run =>
              worklog_store (server r) = worklog_store j
              /\ writes (calls (server r)) = writes (calls j)).
  apply (for_each_preserves _ I); [|done].
  intros path r _ Hr. apply (for_each_preserves _ I); [|done]. clear r Hr.
  intros node r _ Hr. unfold node_body. cbv zeta.
  destruct (clock node) as [|c0 cs0]; [done|].
  apply (for_each_preserves _ I); [|done]. clear r Hr.
  intros clocked r _ [Hst Hwr]. unfold I.
  destruct (clock_body_server args settings node
              (truthy (properties node !! "jira-skip")) clocked r)
    as [[_ ->] | (m & key & _ & _ & _ & -> & _)]; [done|].
  destruct (gate_not_sent key m (heading node) (query_jira args)
              (args_send_data_to_jira args) (server r)) as [-> ->]; [|done].
  rewrite Hdry. intros Hsent.
  destruct (send_interval_to_jira _ _ _ _ _ _) as [out j'] eqn:Hgate.
  cbn [fst] in Hsent. subst out.
  by destruct (gate_sent _ _ _ _ _ _ _ Hgate) as (_ & _ & _ & _ & _ & ? & _).
Qed.

Lemma dry_run_writes_nothing_witness :
  worklog_store
    (server (snd (send_data_to_jira (fun _ => [sample_review])
                    (mkArgs [sample_window] true false) sample_settings
                    fresh_server)))
  = worklog_store fresh_server.
Proof.
  apply (proj1 (dry_run_writes_nothing (fun _ => [sample_review])
                  (mkArgs [sample_window] true false) sample_settings
                  fresh_server eq_refl)).
Defined.

(** X11.  With both flags unset the run sends no request at all: whatever
    the files, the windows and the settings are, the server after the run
    is exactly the server before it, its stored work-logs and its record of
    requests included. *)
Theorem offline_run_sends_no_request (load : string -> list OutlineNode)
    (args : Args) (settings : Settings) (j : Jira) :
  query_jira args = false ->
  args_send_data_to_jira args = false ->
  server (snd (send_data_to_jira load args settings j)) = j.
Proof.
  intros Hq Hs. unfold send_data_to_jira, send_data_loop.
  set (I := fun r : Run => server r = j).
  apply (for_each_preserves _ I); [|done].
  intros path r _ Hr. apply (for_each_preserves _ I); [|done]. clear r Hr.
  intros node r _ Hr. unfold node_body. cbv zeta.
  destruct (clock node) as [|c0 cs0]; [done|].
  apply (for_each_preserves _ I); [|done]. clear r Hr.
  intros clocked r _ Hr. unfold I in *.
  destruct (clock_body_server args settings node
              (truthy (properties node !! "jira-skip")) clocked r)
    as [[_ ->] | (m & key & _ & _ & _ & -> & _)]; [done|].
  rewrite Hq, Hs, send_interval_to_jira_outcome.
  unfold gate_outcome. by cbn [snd andb].
Qed.

(** The sample entry, offline, against a server that knows no issue. *)
Lemma offline_run_sends_no_request_witness :
  server (snd (send_data_to_jira (fun _ => [sample_review])
                 (mkArgs [sample_window] false false) sample_settings
                 (mkJira ∅ [])))
  = mkJira ∅ [].
Proof.
  apply (offline_run_sends_no_request (fun _ => [sample_review])
           (mkArgs [sample_window] false false) sample_settings
           (mkJira ∅ []) eq_refl eq_refl).
Defined.

(** The totals after the loop body: untouched for an unmatched entry, else
    the unconditional updates, with or without the added time. *)
Lemma clock_body_totals_cases args settings node skip clocked r :
  let t' := totals (snd (clock_body args settings node skip clocked r)) in
  let t1 := entry_totals skip (find_jira_issue node settings) clocked
              (totals r) in
  (matches (intervals args) clocked = false /\ t' = totals r)
  \/ (matches (intervals args) clocked = true /\ t' = t1)
  \/ (matches (intervals args) clocked = true /\ skip = false
      /\ t' = update_day (add_day_added (clock_duration clocked))
                (date (clock_start clocked)) t1).
Proof.
  cbv zeta. unfold matches.
  destruct (match_lookup_intervals (intervals args) (clock_start clocked)
              (clock_end clocked)) as [m|] eqn:Hm.
  - rewrite (clock_body_totals _ _ _ _ _ m) by done. cbv zeta.
    destruct (truthy _); cbn [andb]; [|by right; left].
    destruct skip; cbn [negb]; [by right; left|].
    destruct (fst _) as [[]|]; auto.
  - rewrite clock_body_unmatched by done. by left.
Qed.

Lemma balanced_entry_totals skip issue c t :
  balanced t -> balanced (entry_totals skip issue c t).
Proof.
  intros [Hg Hd].
  destruct (totals_entry_totals skip issue c t) as (Hi & Hs & Hc).
  split.
  - rewrite Hi, Hs, Hc. destruct skip; lia.
  - intros day. rewrite day_stats_entry_totals. specialize (Hd day).
    case_decide; [|done]. cbn. destruct skip; lia.
Qed.

Lemma balanced_added d day t :
  balanced t -> balanced (update_day (add_day_added d) day t).
Proof.
  intros [Hg Hd]. split; [done|]. intros day'.
  rewrite day_stats_add_day_added. specialize (Hd day').
  by case_decide.
Qed.

Lemma clock_body_balanced args settings node skip clocked r :
  balanced (totals r) ->
  balanced (totals (snd (clock_body args settings node skip clocked r))).
Proof.
  intros Hb.
  destruct (clock_body_totals_cases args settings node skip clocked r)
    as [[_ ->] | [[_ ->] | (_ & _ & ->)]]; [done| |].
  - by apply balanced_entry_totals.
  - by apply balanced_added, balanced_entry_totals.
Qed.

(** X12.  The books balance: in the totals of a run, complete or stopped by
    a raise, the cumulative time is the invoiced time plus the skipped
    time, overall and for every day. *)
Theorem cumulative_is_invoiced_plus_skipped
    (load : string -> list OutlineNode) (args : Args) (settings : Settings)
    (j : Jira) :
  let t := totals (snd (send_data_to_jira load args settings j)) in
  cumulative_time t = invoice_time t + skipped_time t
  /\ forall day,
      day_cumulative_time (day_stats t day)
      = day_invoice_time (day_stats t day)
        + day_skipped_time (day_stats t day).
Proof.
  cbv zeta. unfold send_data_to_jira, send_data_loop.
  set (I := fun r : Run => balanced (totals r)).
  apply (for_each_preserves _ I); [|by split].
  intros path r _ Hr. apply (for_each_preserves _ I); [|done]. clear r Hr.
  intros node r _ Hr. unfold node_body. cbv zeta.
  destruct (clock node) as [|c0 cs0]; [done|].
  apply (for_each_preserves _ I); [|done]. clear r Hr.
  intros clocked r _ Hr. by apply clock_body_balanced.
Qed.

Lemma bounded_entry_totals skip issue c t :
  0 <= clock_duration c ->
  bounded t -> bounded (entry_totals skip issue c t).
Proof.
  intros Hd (Hi & Hs & Hc & Htask & Hday).
  destruct (totals_entry_totals skip issue c t) as (Hi' & Hs' & Hc').
  split_and!.
  - rewrite Hi'. destruct skip; lia.
  - rewrite Hs'. destruct skip; lia.
  - rewrite Hc'. lia.
  - intros task. rewrite task_time_entry_totals.
    pose proof (Htask issue). pose proof (Htask task). case_decide; lia.
  - intros day. rewrite day_stats_entry_totals.
    destruct (Hday day) as (Ha & Hk & Hcum).
    case_decide; [|done]. cbn. destruct skip; lia.
Qed.

Lemma bounded_added c t :
  0 <= clock_duration c ->
  bounded t ->
  day_added_time (day_stats t (date (clock_start c))) + clock_duration c
  <= day_invoice_time (day_stats t (date (clock_start c))) ->
  bounded (update_day (add_day_added (clock_duration c))
             (date (clock_start c)) t).
Proof.
  intros Hd (Hi & Hs & Hc & Htask & Hday) Hroom. split_and!; try done.
  intros day. rewrite day_stats_add_day_added.
  destruct (Hday day) as (Ha & Hk & Hcum).
  case_decide as Heq; [|done]. subst day. cbn. lia.
Qed.

Lemma clock_body_bounded args settings node skip clocked r :
  0 <= clock_duration clocked ->
  bounded (totals r) ->
  bounded (totals (snd (clock_body args settings node skip clocked r))).
Proof.
  intros Hd Hb.
  pose proof (bounded_entry_totals skip (find_jira_issue node settings)
                clocked (totals r) Hd Hb) as Hentry.
  destruct (clock_body_totals_cases args settings node skip clocked r)
    as [[_ ->] | [[_ ->] | (_ & -> & ->)]]; [done | done |].
  apply bounded_added; [done|done|].
  rewrite day_stats_entry_totals, decide_True by done. cbn.
  destruct Hb as (_ & _ & _ & _ & Hday).
  destruct (Hday (date (clock_start clocked))) as (Ha & _). lia.
Qed.

(** X13.  When no recorded duration is negative, no counter is: the
    invoiced, skipped and cumulative times are non-negative overall and for
    every day, so is the time of every task, and the time reported as added
    for a day is non-negative and never exceeds the time invoiced for that
    day. *)
Theorem added_time_within_invoiced (load : string -> list OutlineNode)
    (args : Args) (settings : Settings) (j : Jira) :
  (forall path node clocked,
      In path (org_files settings) -> In node (load path) ->
      In clocked (clock node) -> 0 <= clock_duration clocked) ->
  let t := totals (snd (send_data_to_jira load args settings j)) in
  0 <= invoice_time t /\ 0 <= skipped_time t /\ 0 <= cumulative_time t
  /\ (forall task, 0 <= task_time t task)
  /\ forall day,
      0 <= day_added_time (day_stats t day)
        <= day_invoice_time (day_stats t day)
      /\ 0 <= day_skipped_time (day_stats t day)
      /\ 0 <= day_cumulative_time (day_stats t day).
Proof.
  intros Hdur. cbv zeta. unfold send_data_to_jira, send_data_loop.
  set (I := fun r : Run => bounded (totals r)).
  apply (for_each_preserves _ I); [|by split_and!].
  intros path r Hpath Hr. apply (for_each_preserves _ I); [|done].
  clear r Hr.
  intros node r Hnode Hr. unfold node_body. cbv zeta.
  destruct (clock node) as [|c0 cs0] eqn:Hclock; [done|].
  apply (for_each_preserves _ I); [|done]. clear r Hr.
  intros clocked r Hc Hr. apply clock_body_bounded; [|done].
  apply (Hdur path node); try done. by rewrite Hclock.
Qed.

Lemma added_time_within_invoiced_witness :
  let t := totals (snd (send_data_to_jira (fun _ => [sample_review])
                          sample_args sample_settings fresh_server)) in
  0 <= invoice_time t /\ 0 <= skipped_time t /\ 0 <= cumulative_time t
  /\ (forall task, 0 <= task_time t task)
  /\ forall day,
      0 <= day_added_time (day_stats t day)
        <= day_invoice_time (day_stats t day)
      /\ 0 <= day_skipped_time (day_stats t day)
      /\ 0 <= day_cumulative_time (day_stats t day).
Proof.
  apply (added_time_within_invoiced (fun _ => [sample_review]) sample_args
           sample_settings fresh_server).
  intros path node clocked _ [<- | []] [<- | []]. cbn. lia.
Defined.

Lemma clock_body_unsent args settings node skip clocked r :
  truthy (find_jira_issue node settings) && negb skip = false ->
  clock_body args settings node skip clocked r
  = (Ok tt,
     mkRun (if matches (intervals args) clocked
            then entry_totals skip (find_jira_issue node settings) clocked
                   (totals r)
            else totals r)
           (server r)).
Proof.
  intros Hunsent. unfold matches.
  destruct (match_lookup_intervals (intervals args) (clock_start clocked)
              (clock_end clocked)) as [m|] eqn:Hm.
  - rewrite (clock_body_matched _ _ _ _ _ m) by done. cbv zeta.
    by rewrite Hunsent.
  - rewrite clock_body_unmatched by done. by destruct r.
Qed.

Lemma for_each_unsent args settings node skip cs r :
  truthy (find_jira_issue node settings) && negb skip = false ->
  let r' := snd (for_each (clock_body args settings node skip) cs r) in
  let total := matched_time (intervals args) cs in
  let issue := find_jira_issue node settings in
  fst (for_each (clock_body args settings node skip) cs r) = Ok tt
  /\ server r' = server r
  /\ task_time (totals r') issue = task_time (totals r) issue + total
  /\ cumulative_time (totals r') = cumulative_time (totals r) + total
  /\ invoice_time (totals r')
     = invoice_time (totals r) + (if skip then 0 else total)
  /\ skipped_time (totals r')
     = skipped_time (totals r) + (if skip then total else 0)
  /\ (forall day,
        day_added_time (day_stats (totals r') day)
        = day_added_time (day_stats (totals r) day)).
Proof.
  intros Hunsent. cbv zeta. revert r.
  induction cs as [|c cs IH]; intros r.
  - cbn. split_and!; try done; destruct skip; lia.
  - rewrite for_each_cons, clock_body_unsent by done.
    set (r1 := mkRun _ (server r)).
    destruct (IH r1) as (Hout & Hsrv & Htask & Hcum & Hinv & Hskp & Hadd).
    rewrite Hsrv, Htask, Hcum, Hinv, Hskp. cbn [matched_time].
    unfold r1. cbn [totals server]. split_and!; try done.
    + destruct (matches (intervals args) c); [|lia].
      rewrite task_time_entry_totals, decide_True by done. lia.
    + destruct (matches (intervals args) c); [|lia].
      destruct (totals_entry_totals skip (find_jira_issue node settings) c
                  (totals r)) as (_ & _ & ->). lia.
    + destruct (matches (intervals args) c); [|destruct skip; lia].
      destruct (totals_entry_totals skip (find_jira_issue node settings) c
                  (totals r)) as (-> & _ & _). destruct skip; lia.
    + destruct (matches (intervals args) c); [|destruct skip; lia].
      destruct (totals_entry_totals skip (find_jira_issue node settings) c
                  (totals r)) as (_ & -> & _). destruct skip; lia.
    + intros day. rewrite Hadd. unfold r1. cbn [totals].
      destruct (matches (intervals args) c); [|done].
      rewrite day_stats_entry_totals. by case_decide.
Qed.

(** X14.  A node that is not skipped and for which the resolver finds no
    issue is counted but not sent.  For such a node whose clock entries all
    have an end (the entries of the embedding), the loop over them sends no
    request, adds the recorded time of the matched entries to the invoiced
    and cumulative time and to the time of the task keyed by [None], and
    leaves the skipped time and every day's added time as they were. *)
Theorem unresolved_node_counted_not_sent (args : Args)
    (settings : Settings) (node : OutlineNode) (r : Run) :
  truthy (properties node !! "jira-skip") = false ->
  find_jira_issue node settings = None ->
  let r' := snd (node_body args settings node r) in
  let total := matched_time (intervals args) (clock node) in
  server r' = server r
  /\ task_time (totals r') None = task_time (totals r) None + total
  /\ cumulative_time (totals r') = cumulative_time (totals r) + total
  /\ invoice_time (totals r') = invoice_time (totals r) + total
  /\ skipped_time (totals r') = skipped_time (totals r)
  /\ (forall day,
        day_added_time (day_stats (totals r') day)
        = day_added_time (day_stats (totals r) day)).
Proof.
  intros Hskip Hnone. cbv zeta.
  assert (node_body args settings node r
          = for_each (clock_body args settings node false) (clock node) r)
    as ->.
  { unfold node_body. rewrite Hskip. by destruct (clock node). }
  pose proof (for_each_unsent args settings node false (clock node) r)
    as Hloop.
  cbv zeta in Hloop. rewrite Hnone in Hloop.
  destruct (Hloop eq_refl) as (H1 & H2 & H3 & H4 & H5 & H6 & H7).
  split_and!; try done. lia.
Qed.

(** A heading that names no issue, with the sample entry. *)
Lemma unresolved_node_counted_not_sent_witness :
  let node := mkNode "lunch" [] ∅ None [sample_clock] in
  let r := mkRun no_totals fresh_server in
  let r' := snd (node_body sample_args sample_settings node r) in
  server r' = fresh_server
  /\ task_time (totals r') None = 0 + 10800
  /\ cumulative_time (totals r') = 0 + 10800
  /\ invoice_time (totals r') = 0 + 10800
  /\ skipped_time (totals r') = 0
  /\ (forall day,
        day_added_time (day_stats (totals r') day)
        = day_added_time (day_stats no_totals day)).
Proof.
  apply (unresolved_node_counted_not_sent sample_args sample_settings
           (mkNode "lunch" [] ∅ None [sample_clock])
           (mkRun no_totals fresh_server)); reflexivity.
Defined.

Lemma for_each_unchanged {S A} (body : A -> M S unit) (l : list A) (s : S) :
  (forall x, In x l -> body x s = (Ok tt, s)) ->
  for_each body l s = (Ok tt, s).
Proof.
  induction l as [|x l IH]; intros Hbody; [done|].
  rewrite for_each_cons, (Hbody x) by (by left).
  apply IH. intros y Hy. apply Hbody. by right.
Qed.

(** X15.  Entries outside the requested windows are ignored entirely: when
    no clock entry of any node of the files matches, the run returns with
    all totals at zero and the server untouched, whatever the flags are and
    whether or not the nodes resolve to issues the server knows. *)
Theorem unmatched_entries_leave_no_trace (load : string -> list OutlineNode)
    (args : Args) (settings : Settings) (j : Jira) :
  (forall path node clocked,
      In path (org_files settings) -> In node (load path) ->
      In clocked (clock node) ->
      match_lookup_intervals (intervals args) (clock_start clocked)
        (clock_end clocked) = None) ->
  send_data_to_jira load args settings j = (Ok tt, mkRun no_totals j).
Proof.
  intros Hnone. unfold send_data_to_jira, send_data_loop.
  apply for_each_unchanged. intros path Hpath.
  apply for_each_unchanged. intros node Hnode.
  unfold node_body. cbv zeta.
  destruct (clock node) as [|c0 cs0] eqn:Hclock; [done|].
  apply for_each_unchanged. intros clocked Hc.
  apply clock_body_unmatched. apply (Hnone path node); try done.
  by rewrite Hclock.
Qed.

(** The sample entry against the window 2024-01-03..2024-01-04, on a
    server that does not know its issue. *)
Lemma unmatched_entries_leave_no_trace_witness :
  send_data_to_jira (fun _ => [sample_review])
    (mkArgs [mkInterval 172800 259200] true true) sample_settings
    (mkJira ∅ [])
  = (Ok tt, mkRun no_totals (mkJira ∅ [])).
Proof.
  apply (unmatched_entries_leave_no_trace (fun _ => [sample_review])
           (mkArgs [mkInterval 172800 259200] true true) sample_settings
           (mkJira ∅ [])).
  intros path node clocked _ [<- | []] [<- | []]. reflexivity.
Defined.

Lemma has_worklog_extends j j' key t :
  extends j j' -> has_worklog j key t -> has_worklog j' key t.
Proof.
  intros Hext (ws & w & Hk & Hin & Ht). specialize (Hext key).
  rewrite Hk in Hext. destruct Hext as (ws' & Hk' & Hsub).
  exists ws', w. auto.
Qed.

(** After a call of the gate with both flags set that did not raise, for an
    interval whose [seconds] are not zero, the server holds a work-log of
    the issue that starts at the interval's start. *)
Lemma gate_leaves_worklog key interval description j :
  td_seconds (end_ interval - start interval) <> 0 ->
  fst (send_interval_to_jira key interval description true true j)
  <> Raised ->
  has_worklog (snd (send_interval_to_jira key interval description true true
                      j)) key (start interval).
Proof.
  intros Hsecs. rewrite send_interval_to_jira_outcome. unfold gate_outcome.
  cbv zeta.
  destruct (Z.eqb_spec (td_seconds (end_ interval - start interval)) 0);
    [done|].
  cbn [andb negb].
  destruct (worklog_store j !! key) as [ws|] eqn:Hkey; [|done].
  destruct (already_submitted ws (start interval)) eqn:Hdup; intros _.
  - apply already_submitted_In in Hdup as (w & Hin & Ht).
    exists ws, w. cbn [snd worklog_store received]. auto.
  - eexists _, _. cbn [snd worklog_store].
    rewrite lookup_insert_eq. split; [done|].
    split; [apply in_or_app; right; by left|done].
Qed.

(** X16.  A run with both flags set that returns has everything on the
    server: for every clock entry of a node that is not skipped, matched to
    an interval whose [seconds] are not zero and resolved to an issue, the
    server then holds a work-log of that issue that starts at the clock
    start of the entry, written by this run or found there by it. *)
Theorem completed_run_has_every_worklog (load : string -> list OutlineNode)
    (windows : list Interval) (settings : Settings) (j : Jira)
    (path : string) (node : OutlineNode) (clocked : ClockEntry)
    (m : Interval) (key : string) :
  fst (send_data_to_jira load (mkArgs windows true true) settings j)
  = Ok tt ->
  In path (org_files settings) ->
  In node (load path) ->
  In clocked (clock node) ->
  truthy (properties node !! "jira-skip") = false ->
  match_lookup_intervals windows (clock_start clocked) (clock_end clocked)
  = Some m ->
  find_jira_issue node settings = Some key ->
  td_seconds (end_ m - start m) <> 0 ->
  has_worklog
    (server (snd (send_data_to_jira load (mkArgs windows true true) settings
                    j)))
    key (clock_start clocked).
Proof.
  intros Hok Hpath Hnode Hclocked Hskip Hm Hkey Hsecs.
  set (args := mkArgs windows true true) in *.
  set (Q := fun r : Run => has_worklog (server r) key (clock_start clocked)).
  assert (forall (c : M Run unit) r, settled server c -> Q r -> Q (snd (c r)))
    as Hkeep.
  { intros c r [Hmono _] Hr. eapply has_worklog_extends; [apply Hmono|done]. }
  unfold send_data_to_jira, send_data_loop in *.
  apply (for_each_establishes _ Q (org_files settings) path); try done.
  - intros r. apply (for_each_establishes _ Q (load path) node); try done.
    + clear r. intros r. unfold node_body. cbv zeta. rewrite Hskip.
      destruct (clock node) as [|c0 cs0] eqn:Hclock; [done|].
      rewrite <- Hclock in Hclocked |- *.
      apply (for_each_establishes _ Q (clock node) clocked); try done.
      * clear r. intros r.
        rewrite (clock_body_matched _ _ _ _ _ m) by done. cbv zeta.
        rewrite (find_jira_issue_Some_truthy _ _ key), Hkey by done.
        change (default "" (Some key)) with key. cbn [andb negb].
        pose proof (gate_leaves_worklog key m (heading node) (server r)
                      Hsecs) as Hgate.
        apply match_lookup_intervals_Some in Hm as (w & _ & _ & ->).
        cbn [start] in Hgate. unfold Q.
        destruct (send_interval_to_jira _ _ _ _ _ _) as [[[]|] j'];
          cbn [fst snd server] in *; try done; intros _; by apply Hgate.
      * intros c r0. by apply Hkeep, clock_body_settled.
    + intros n r0. by apply Hkeep, node_body_settled.
  - intros p r0. apply Hkeep, settled_for_each.
    intros n. by apply node_body_settled.
Qed.

Lemma completed_run_has_every_worklog_witness :
  has_worklog
    (server (snd (send_data_to_jira (fun _ => [sample_review])
                    (mkArgs [sample_window] true true) sample_settings
                    fresh_server)))
    "PROJ-42" 122400.
Proof.
  apply (completed_run_has_every_worklog (fun _ => [sample_review])
           [sample_window] sample_settings fresh_server "work.org"
           sample_review sample_clock (mkInterval 122400 133200) "PROJ-42");
    try reflexivity; try (by left). discriminate.
Defined.

(** ** Command line *)

Lemma valid_date_bounds year month day :
  valid_date year month day = true ->
  1 <= year <= 9999 /\ 1 <= month <= 12
  /\ 1 <= day <= days_in_month year month.
Proof.
  unfold valid_date. rewrite !andb_true_iff, !Z.leb_le. lia.
Qed.

Lemma days_before_year_succ year :
  days_before_year (year + 1)
  = days_before_year year + 365 + (if is_leap year then 1 else 0).
Proof.
  unfold days_before_year, is_leap. cbv zeta.
  replace (year + 1 - 1) with year by lia.
  destruct (Z.eqb_spec (year mod 4) 0), (Z.eqb_spec (year mod 100) 0),
    (Z.eqb_spec (year mod 400) 0); cbn [andb orb negb];
    Z.div_mod_to_equations; lia.
Qed.

Lemma days_before_year_mono y1 y2 :
  y1 <= y2 -> days_before_year y1 <= days_before_year y2.
Proof.
  intros Hle. unfold days_before_year. cbv zeta.
  Z.div_mod_to_equations. lia.
Qed.

Lemma month_cases month :
  1 <= month <= 12 ->
  month = 1 \/ month = 2 \/ month = 3 \/ month = 4 \/ month = 5
  \/ month = 6 \/ month = 7 \/ month = 8 \/ month = 9 \/ month = 10
  \/ month = 11 \/ month = 12.
Proof. lia. Qed.

Lemma days_before_month_next year month :
  1 <= month <= 11 ->
  days_before_month year (month + 1)
  = days_before_month year month + days_in_month year month.
Proof.
  intros Hm. assert (1 <= month <= 12) as Hc by lia.
  apply month_cases in Hc.
  repeat (destruct Hc as [-> | Hc]); try subst month; try lia;
    unfold days_before_month, days_in_month; destruct (is_leap year);
    reflexivity.
Qed.

Lemma days_in_month_pos year month : 28 <= days_in_month year month <= 31.
Proof.
  unfold days_in_month.
  destruct (month =? 2); [destruct (is_leap year); lia|].
  destruct (_ || _); lia.
Qed.

Lemma days_before_month_mono year m1 m2 :
  1 <= m1 -> m1 < m2 -> m2 <= 12 ->
  days_before_month year m1 + days_in_month year m1
  <= days_before_month year m2.
Proof.
  intros H1 Hlt H2.
  replace m2 with (m1 + 1 + Z.of_nat (Z.to_nat (m2 - m1 - 1))) in * by lia.
  induction (Z.to_nat (m2 - m1 - 1)) as [|n IH].
  - rewrite Z.add_0_r, days_before_month_next by lia. lia.
  - assert (m1 + 1 + Z.of_nat n <= 11) by lia.
    replace (m1 + 1 + Z.of_nat (S n)) with (m1 + 1 + Z.of_nat n + 1) by lia.
    rewrite days_before_month_next by lia.
    pose proof (days_in_month_pos year (m1 + 1 + Z.of_nat n)).
    specialize (IH ltac:(lia) ltac:(lia)). lia.
Qed.

Lemma days_before_month_year year month :
  1 <= month <= 12 ->
  0 <= days_before_month year month
  /\ days_before_month year month + days_in_month year month
     <= 365 + (if is_leap year then 1 else 0).
Proof.
  intros Hc. apply month_cases in Hc.
  repeat (destruct Hc as [-> | Hc]); try subst month;
    unfold days_before_month, days_in_month; destruct (is_leap year);
    split; apply Z.leb_le; reflexivity.
Qed.

(** The ordinal of a date respects the calendar. *)
Lemma ymd2ord_lt y1 m1 d1 y2 m2 d2 :
  valid_date y1 m1 d1 = true -> valid_date y2 m2 d2 = true ->
  date_before y1 m1 d1 y2 m2 d2 ->
  ymd2ord y1 m1 d1 < ymd2ord y2 m2 d2.
Proof.
  intros (Hy1 & Hm1 & Hd1)%valid_date_bounds
         (Hy2 & Hm2 & Hd2)%valid_date_bounds Hbefore.
  unfold ymd2ord.
  destruct Hbefore as [Hy | [-> [Hm | [-> Hd]]]].
  - pose proof (days_before_month_year y1 m1 Hm1).
    pose proof (days_before_month_year y2 m2 Hm2).
    pose proof (days_before_year_succ y1).
    pose proof (days_before_year_mono (y1 + 1) y2). lia.
  - pose proof (days_before_month_mono y2 m1 m2). lia.
  - lia.
Qed.

Lemma ymd2ord_order y1 m1 d1 y2 m2 d2 :
  valid_date y1 m1 d1 = true -> valid_date y2 m2 d2 = true ->
  (ymd2ord y1 m1 d1 < ymd2ord y2 m2 d2 <-> date_before y1 m1 d1 y2 m2 d2).
Proof.
  intros H1 H2. split; [|by apply ymd2ord_lt].
  intros Hlt.
  destruct (Z.lt_trichotomy y1 y2) as [?|[->|Hy]]; [by left| |].
  - destruct (Z.lt_trichotomy m1 m2) as [?|[->|Hm]];
      [right; split; [done|by left]| |].
    + destruct (Z.lt_trichotomy d1 d2) as [?|[->|Hd]];
        [right; split; [done|right; done]|lia|].
      pose proof (ymd2ord_lt y2 m2 d2 y2 m2 d1 H2 H1). unfold date_before in *.
      lia.
    + pose proof (ymd2ord_lt y2 m2 d2 y2 m1 d1 H2 H1). unfold date_before in *.
      lia.
  - pose proof (ymd2ord_lt y2 m2 d2 y1 m1 d1 H2 H1). unfold date_before in *.
    lia.
Qed.

Lemma digit_char_cases n :
  exists k,
    (k = 0 \/ k = 1 \/ k = 2 \/ k = 3 \/ k = 4 \/ k = 5 \/ k = 6
     \/ k = 7 \/ k = 8 \/ k = 9)
    /\ n mod 10 = k
    /\ digit_char n = ascii_of_nat (Z.to_nat (48 + k)).
Proof.
  exists (n mod 10). split; [|done].
  pose proof (Z.mod_pos_bound n 10). lia.
Qed.

Ltac digit_cases n :=
  let k := fresh "k" in
  let Hcases := fresh "Hcases" in
  let Hmod := fresh "Hmod" in
  let Hc := fresh "Hc" in
  destruct (digit_char_cases n) as (k & Hcases & Hmod & Hc);
  rewrite Hc, ?Hmod; clear Hc Hmod;
  repeat (destruct Hcases as [-> | Hcases]); try subst k; reflexivity.

Lemma digit_char_value n : digit_value (digit_char n) = Some (n mod 10).
Proof. digit_cases n. Qed.

Lemma digit_char_no_space n : is_int_space (digit_char n) = false.
Proof. digit_cases n. Qed.

Lemma digit_char_no_plus n : Ascii.eqb (digit_char n) "+" = false.
Proof. digit_cases n. Qed.

Lemma digit_char_no_minus n : Ascii.eqb (digit_char n) "-" = false.
Proof. digit_cases n. Qed.

Lemma py_int_two_digits n : 0 <= n <= 99 -> py_int (two_digits n) = Some n.
Proof.
  intros Hn. unfold py_int, two_digits. cbn [skip_int_space].
  rewrite digit_char_no_space, digit_char_no_plus, digit_char_no_minus.
  rewrite digit_char_value. cbn [int_digits].
  rewrite digit_char_value. f_equal. Z.div_mod_to_equations. lia.
Qed.

Lemma py_int_four_digits n :
  0 <= n <= 9999 -> py_int (four_digits n) = Some n.
Proof.
  intros Hn. unfold py_int, four_digits. cbn [skip_int_space].
  rewrite digit_char_no_space, digit_char_no_plus, digit_char_no_minus.
  rewrite digit_char_value. cbn [int_digits].
  rewrite !digit_char_value. f_equal. Z.div_mod_to_equations. lia.
Qed.

Lemma days_in_month_le year month : days_in_month year month <= 99.
Proof. pose proof (days_in_month_pos year month). lia. Qed.

Lemma documented_token_parses_aux (y1 m1 d1 y2 m2 d2 : Z) :
  valid_date y1 m1 d1 = true ->
  valid_date y2 m2 d2 = true ->
  exists w,
    parse_interval (token y1 m1 d1 y2 m2 d2) = Some w
    /\ start w = (ymd2ord y1 m1 d1 - 738886) * 86400
    /\ end_ w = (ymd2ord y2 m2 d2 - 738886) * 86400.
Proof.
  intros H1 H2.
  pose proof (valid_date_bounds _ _ _ H1) as (Hy1 & Hm1 & Hd1).
  pose proof (valid_date_bounds _ _ _ H2) as (Hy2 & Hm2 & Hd2).
  pose proof (days_in_month_le y1 m1). pose proof (days_in_month_le y2 m2).
  exists (mkInterval ((ymd2ord y1 m1 d1 - 738886) * 86400)
                     ((ymd2ord y2 m2 d2 - 738886) * 86400)).
  split; [|done].
  unfold parse_interval.
  change (slice (token y1 m1 d1 y2 m2 d2) 0 4) with (four_digits y1).
  change (slice (token y1 m1 d1 y2 m2 d2) 5 7) with (two_digits m1).
  change (slice (token y1 m1 d1 y2 m2 d2) 8 10) with (two_digits d1).
  change (slice (token y1 m1 d1 y2 m2 d2) 12 16) with (four_digits y2).
  change (slice (token y1 m1 d1 y2 m2 d2) 17 19) with (two_digits m2).
  change (slice (token y1 m1 d1 y2 m2 d2) 20 22) with (two_digits d2).
  rewrite !py_int_four_digits, !py_int_two_digits by lia.
  cbn [mbind option_bind]. unfold datetime. rewrite H1, H2.
  cbn [mbind option_bind]. reflexivity.
Qed.

(** X17.  A token in the documented form parses to the window between the
    two midnights: for two dates of the calendar, the zero-padded text
    YYYY-MM-DD..YYYY-MM-DD yields the interval from 00:00 of the first date
    to 00:00 of the second, so the hours of the second date itself are
    outside the window. *)
Theorem documented_token_parses (y1 m1 d1 y2 m2 d2 : Z) :
  valid_date y1 m1 d1 = true ->
  valid_date y2 m2 d2 = true ->
  exists w,
    parse_interval (token y1 m1 d1 y2 m2 d2) = Some w
    /\ start w = (ymd2ord y1 m1 d1 - 738886) * 86400
    /\ end_ w = (ymd2ord y2 m2 d2 - 738886) * 86400
    /\ date (start w) * 86400 = start w
    /\ date (end_ w) * 86400 = end_ w.
Proof.
  intros H1 H2.
  destruct (documented_token_parses_aux y1 m1 d1 y2 m2 d2 H1 H2)
    as (w & Hw & Hs & He).
  exists w. rewrite Hs, He. unfold date.
  split_and!; try done; rewrite Z.div_mul by lia; done.
Qed.

(** The window of the sample data as a token. *)
Lemma documented_token_parses_witness :
  exists w,
    parse_interval "2024-01-01..2024-01-03" = Some w
    /\ start w = (ymd2ord 2024 1 1 - 738886) * 86400
    /\ end_ w = (ymd2ord 2024 1 3 - 738886) * 86400
    /\ date (start w) * 86400 = start w
    /\ date (end_ w) * 86400 = end_ w.
Proof.
  apply (documented_token_parses 2024 1 1 2024 1 3); reflexivity.
Defined.

Lemma substring_empty n m : String.substring n m "" = "".
Proof. by destruct n, m. Qed.

Lemma substring_ext n m s s' :
  (forall i, (n <= i < n + m)%nat -> String.get i s = String.get i s') ->
  String.substring n m s = String.substring n m s'.
Proof.
  revert m s s'. induction n as [|n IHn].
  - induction m as [|m IHm]; intros s s' Hget.
    + by destruct s, s'.
    + destruct s as [|c s], s' as [|c' s']; [done| | |].
      * specialize (Hget 0%nat ltac:(lia)). done.
      * specialize (Hget 0%nat ltac:(lia)). done.
      * pose proof (Hget 0%nat ltac:(lia)) as [= <-].
        cbn [String.substring]. f_equal. apply IHm.
        intros i Hi. apply (Hget (S i)). lia.
  - intros m s s' Hget.
    destruct s as [|c s], s' as [|c' s'].
    + done.
    + cbn [String.substring]. rewrite <- (IHn m "" s');
        [by rewrite substring_empty|].
      intros i Hi. specialize (Hget (S i) ltac:(lia)). by destruct i.
    + cbn [String.substring]. rewrite (IHn m s "");
        [by rewrite substring_empty|].
      intros i Hi. specialize (Hget (S i) ltac:(lia)). by destruct i.
    + cbn [String.substring]. apply IHn.
      intros i Hi. apply (Hget (S i)). lia.
Qed.

(** X18.  The parser reads sixteen characters of a token and nothing else:
    the characters between the fields (positions 4, 7, 10, 11, 16 and 19)
    and everything from position 22 on are never inspected, so two tokens
    that agree on the positions of the six fields parse alike, whatever
    stands in place of the hyphens and the two dots. *)
Theorem unread_characters_ignored (v v' : string) :
  (forall i,
      In i [0; 1; 2; 3; 5; 6; 8; 9; 12; 13; 14; 15; 17; 18; 20; 21]%nat ->
      String.get i v = String.get i v') ->
  parse_interval v = parse_interval v'.
Proof.
  intros Hget. unfold parse_interval, slice.
  assert (forall i,
             existsb (Nat.eqb i)
               [0; 1; 2; 3; 5; 6; 8; 9; 12; 13; 14; 15; 17; 18; 20; 21]%nat
             = true ->
             String.get i v = String.get i v') as Hread.
  { intros i Hi. apply Hget.
    apply existsb_exists in Hi as (x & Hx & ->%Nat.eqb_eq). exact Hx. }
  assert (forall n m,
             (forall i, (n <= i < n + m)%nat ->
                existsb (Nat.eqb i)
                  [0; 1; 2; 3; 5; 6; 8; 9; 12; 13; 14; 15; 17; 18; 20;
                   21]%nat = true) ->
             String.substring n m v = String.substring n m v') as Hsub.
  { intros n m Hin. apply substring_ext. intros i Hi. by apply Hread, Hin. }
  assert (forall i, (i = 0 \/ i = 1 \/ i = 2 \/ i = 3 \/ i = 5 \/ i = 6
                     \/ i = 8 \/ i = 9 \/ i = 12 \/ i = 13 \/ i = 14
                     \/ i = 15 \/ i = 17 \/ i = 18 \/ i = 20
                     \/ i = 21)%nat ->
                    existsb (Nat.eqb i)
                      [0; 1; 2; 3; 5; 6; 8; 9; 12; 13; 14; 15; 17; 18; 20;
                       21]%nat = true) as Hpos.
  { intros i Hi. repeat (destruct Hi as [-> | Hi]; [reflexivity|]).
    by subst i. }
  rewrite (Hsub 0 (4 - 0))%nat, (Hsub 5 (7 - 5))%nat, (Hsub 8 (10 - 8))%nat,
    (Hsub 12 (16 - 12))%nat, (Hsub 17 (19 - 17))%nat,
    (Hsub 20 (22 - 20))%nat; [done|..];
    intros i Hi; apply Hpos; cbn [Nat.sub Nat.add] in Hi; lia.
Qed.

Lemma unread_characters_ignored_witness :
  parse_interval "2024/01/01->2024/01/03 (this week)"
  = parse_interval "2024-01-01..2024-01-03".
Proof.
  apply (unread_characters_ignored "2024/01/01->2024/01/03 (this week)"
           "2024-01-01..2024-01-03").
  intros i Hi. simpl in Hi.
  repeat (destruct Hi as [<- | Hi]; [reflexivity|]). destruct Hi.
Defined.

Lemma substring_short n m s :
  (String.length s <= n)%nat -> String.substring n m s = "".
Proof.
  revert s. induction n as [|n IH]; intros s Hlen.
  - destruct s; [by destruct m|cbn in Hlen; lia].
  - destruct s as [|c s]; [done|]. cbn [String.substring]. apply IH.
    cbn in Hlen. lia.
Qed.

Lemma parse_intervals_None values v :
  In v values -> parse_interval v = None -> parse_intervals values = None.
Proof.
  induction values as [|x values IH]; [done|].
  intros [-> | Hin] Hv; cbn [parse_intervals].
  - by rewrite Hv.
  - destruct (parse_interval x); [|done]. by rewrite IH.
Qed.

(** X19.  A token of fewer than twenty-one characters has no day field for
    the second date and is rejected, and one rejected token rejects the
    whole command line: no list of windows is produced, however many of
    the other tokens are well formed. *)
Theorem short_token_rejects_all (args : Args) (values : list string)
    (v : string) :
  In v values ->
  (String.length v < 21)%nat ->
  parse_interval v = None /\ parseIntervals args values = None.
Proof.
  intros Hin Hlen.
  assert (parse_interval v = None) as Hv.
  { unfold parse_interval.
    assert (slice v 20 22 = "") as -> by (apply substring_short; lia).
    destruct (py_int (slice v 0 4)); [|done].
    destruct (py_int (slice v 5 7)); [|done].
    destruct (py_int (slice v 8 10)); [|done]. cbn [mbind option_bind].
    destruct (datetime _ _ _); [|done].
    destruct (py_int (slice v 12 16)); [|done].
    by destruct (py_int (slice v 17 19)). }
  split; [done|]. unfold parseIntervals.
  by rewrite (parse_intervals_None values v).
Qed.

Lemma short_token_rejects_all_witness :
  parseIntervals sample_args
    ["2024-01-01..2024-01-03"; "2024-01-01..2024-01-"]
  = None.
Proof.
  apply (proj2 (short_token_rejects_all sample_args
                  ["2024-01-01..2024-01-03"; "2024-01-01..2024-01-"]
                  "2024-01-01..2024-01-"
                  ltac:(right; left; reflexivity) ltac:(cbn; lia))).
Defined.

(** X20.  The order of the window follows the calendar, and nothing checks
    it: for two dates of the calendar in the documented form, the parsed
    window has its start before its end exactly when the first date is
    before the second; when it is not, the token is still accepted, and the
    window it yields matches no clock entry. *)
Theorem window_order_is_calendar_order (y1 m1 d1 y2 m2 d2 : Z) :
  valid_date y1 m1 d1 = true ->
  valid_date y2 m2 d2 = true ->
  exists w,
    parse_interval (token y1 m1 d1 y2 m2 d2) = Some w
    /\ (start w < end_ w <-> date_before y1 m1 d1 y2 m2 d2)
    /\ (~ date_before y1 m1 d1 y2 m2 d2 ->
        forall cs ce, match_lookup_intervals [w] cs ce = None).
Proof.
  intros H1 H2.
  destruct (documented_token_parses_aux y1 m1 d1 y2 m2 d2 H1 H2)
    as (w & Hw & Hs & He).
  exists w. split; [done|].
  assert (start w < end_ w <-> date_before y1 m1 d1 y2 m2 d2) as Horder.
  { rewrite Hs, He, <- (ymd2ord_order y1 m1 d1 y2 m2 d2) by done. lia. }
  split; [done|]. intros Hnot cs ce.
  apply match_lookup_intervals_None. intros w' [<- | []].
  apply contains_empty_window.
  destruct (Z.lt_ge_cases (start w) (end_ w)) as [Hlt|Hge]; [|lia].
  exfalso. by apply Hnot, Horder.
Qed.

(** A token from 2024-01-03 back to 2024-01-01. *)
Lemma window_order_is_calendar_order_witness :
  exists w,
    parse_interval "2024-01-03..2024-01-01" = Some w
    /\ (start w < end_ w <-> date_before 2024 1 3 2024 1 1)
    /\ (~ date_before 2024 1 3 2024 1 1 ->
        forall cs ce, match_lookup_intervals [w] cs ce = None).
Proof.
  apply (window_order_is_calendar_order 2024 1 3 2024 1 1); reflexivity.
Defined.

(** ** Runs compared *)

Lemma for_each_related {S A} (R : S -> S -> Prop)
    (body body' : A -> M S unit) (l : list A) :
  (forall x s s',
      R s s' -> fst (body x s) = Ok tt -> fst (body' x s') = Ok tt ->
      R (snd (body x s)) (snd (body' x s'))) ->
  forall s s',
    R s s' ->
    fst (for_each body l s) = Ok tt ->
    fst (for_each body' l s') = Ok tt ->
    R (snd (for_each body l s)) (snd (for_each body' l s')).
Proof.
  intros Hstep. induction l as [|x l IH]; intros s s' HR; [done|].
  rewrite !for_each_cons. specialize (Hstep x s s' HR).
  destruct (body x s) as [[[]|] s1], (body' x s') as [[[]|] s1']; try done.
  intros. by apply IH; [apply Hstep| |].
Qed.

Lemma per_task_entry_totals skip issue c t :
  per_task (entry_totals skip issue c t)
  = <[issue := task_time t issue + clock_duration c]> (per_task t).
Proof. by destruct skip. Qed.

Lemma same_accounts_entry_totals skip issue c t t' :
  same_accounts t t' ->
  same_accounts (entry_totals skip issue c t) (entry_totals skip issue c t').
Proof.
  intros (Hi & Hs & Hc & Ht & Hd).
  destruct (totals_entry_totals skip issue c t) as (Hi1 & Hs1 & Hc1).
  destruct (totals_entry_totals skip issue c t') as (Hi2 & Hs2 & Hc2).
  split_and!; try congruence.
  - rewrite !per_task_entry_totals. unfold task_time. by rewrite Ht.
  - intros day. rewrite !day_stats_entry_totals.
    destruct (Hd day) as (H1 & H2 & H3).
    case_decide; [|done]. cbn. by rewrite H1, H2, H3.
Qed.

Lemma same_accounts_added_l d day t t' :
  same_accounts t t' ->
  same_accounts (update_day (add_day_added d) day t) t'.
Proof.
  intros (Hi & Hs & Hc & Ht & Hd). split_and!; try done.
  intros day'. rewrite day_stats_add_day_added.
  case_decide; [|done]. apply Hd.
Qed.

Lemma same_accounts_sym t t' : same_accounts t t' -> same_accounts t' t.
Proof.
  intros (Hi & Hs & Hc & Ht & Hd). split_and!; try done.
  intros day. destruct (Hd day) as (H1 & H2 & H3). done.
Qed.

Lemma clock_body_same_accounts args args' settings node skip clocked r r' :
  intervals args = intervals args' ->
  same_accounts (totals r) (totals r') ->
  same_accounts
    (totals (snd (clock_body args settings node skip clocked r)))
    (totals (snd (clock_body args' settings node skip clocked r'))).
Proof.
  intros Hivl Hsame.
  pose proof (same_accounts_entry_totals skip
                (find_jira_issue node settings) clocked _ _ Hsame) as Hentry.
  destruct (clock_body_totals_cases args settings node skip clocked r)
    as [[Hm ->] | [[Hm ->] | (Hm & _ & ->)]];
    destruct (clock_body_totals_cases args' settings node skip clocked r')
      as [[Hm' ->] | [[Hm' ->] | (Hm' & _ & ->)]];
    rewrite Hivl in Hm; try congruence; try done.
  - by apply same_accounts_sym, same_accounts_added_l, same_accounts_sym.
  - by apply same_accounts_added_l.
  - apply same_accounts_added_l, same_accounts_sym, same_accounts_added_l.
    by apply same_accounts_sym.
Qed.

(** Two runs over the same loader that both return agree on everything
    but the added time. *)
Lemma same_load_same_accounts (load : string -> list OutlineNode)
    (args args' : Args) (settings : Settings) (r r' : Run) :
  intervals args = intervals args' ->
  same_accounts (totals r) (totals r') ->
  fst (send_data_loop load args settings r) = Ok tt ->
  fst (send_data_loop load args' settings r') = Ok tt ->
  same_accounts (totals (snd (send_data_loop load args settings r)))
                (totals (snd (send_data_loop load args' settings r'))).
Proof.
  intros Hivl. unfold send_data_loop.
  set (R := fun r r' : Run => same_accounts (totals r) (totals r')).
  apply (for_each_related R).
  intros path s s' HR. apply (for_each_related R); [|done]. clear s s' HR.
  intros node s s' HR. unfold node_body. cbv zeta.
  destruct (clock node) as [|c0 cs0]; [done|].
  apply (for_each_related R); [|done]. clear s s' HR.
  intros clocked s s' HR _ _. by apply clock_body_same_accounts.
Qed.

Lemma for_each_related2 {S A} (R : S -> S -> Prop) (E : A -> A -> Prop)
    (body body' : A -> M S unit) (l l' : list A) :
  Forall2 E l l' ->
  (forall x x' s s',
      E x x' -> R s s' ->
      fst (body x s) = Ok tt -> fst (body' x' s') = Ok tt ->
      R (snd (body x s)) (snd (body' x' s'))) ->
  forall s s',
    R s s' ->
    fst (for_each body l s) = Ok tt ->
    fst (for_each body' l' s') = Ok tt ->
    R (snd (for_each body l s)) (snd (for_each body' l' s')).
Proof.
  intros Hl Hstep. induction Hl as [|x x' l l' Hx _ IH]; intros s s' HR;
    [done|].
  rewrite !for_each_cons. specialize (Hstep x x' s s' Hx HR).
  destruct (body x s) as [[[]|] s1], (body' x' s') as [[[]|] s1']; try done.
  intros. by apply IH; [apply Hstep| |].
Qed.

Lemma for_each_related_in {S A} (R : S -> S -> Prop)
    (body body' : A -> M S unit) (l : list A) :
  (forall x s s',
      In x l -> R s s' ->
      fst (body x s) = Ok tt -> fst (body' x s') = Ok tt ->
      R (snd (body x s)) (snd (body' x s'))) ->
  forall s s',
    R s s' ->
    fst (for_each body l s) = Ok tt ->
    fst (for_each body' l s') = Ok tt ->
    R (snd (for_each body l s)) (snd (for_each body' l s')).
Proof.
  induction l as [|x l IH]; intros Hstep s s' HR; [done|].
  rewrite !for_each_cons.
  pose proof (Hstep x s s' (or_introl eq_refl) HR) as Hx.
  destruct (body x s) as [[[]|] s1], (body' x s') as [[[]|] s1']; try done.
  intros. apply IH; [|by apply Hx|done|done].
  intros y t t' Hy. apply Hstep. by right.
Qed.

Lemma same_times_entry_totals skip issue issue' c t t' :
  same_times t t' ->
  same_times (entry_totals skip issue c t) (entry_totals skip issue' c t').
Proof.
  intros (Hi & Hs & Hc & Hd).
  destruct (totals_entry_totals skip issue c t) as (Hi1 & Hs1 & Hc1).
  destruct (totals_entry_totals skip issue' c t') as (Hi2 & Hs2 & Hc2).
  split_and!; try congruence.
  intros day. rewrite !day_stats_entry_totals.
  destruct (Hd day) as (H1 & H2 & H3).
  case_decide; [|done]. cbn. by rewrite H1, H2, H3.
Qed.

Lemma same_times_added_l d day t t' :
  same_times t t' -> same_times (update_day (add_day_added d) day t) t'.
Proof.
  intros (Hi & Hs & Hc & Hd). split_and!; try done.
  intros day'. rewrite day_stats_add_day_added.
  case_decide; [|done]. apply Hd.
Qed.

Lemma same_times_sym t t' : same_times t t' -> same_times t' t.
Proof.
  intros (Hi & Hs & Hc & Hd). split_and!; try done.
  intros day. destruct (Hd day) as (H1 & H2 & H3). done.
Qed.

Lemma clock_body_same_times args args' settings node node' skip clocked
    r r' :
  intervals args = intervals args' ->
  same_times (totals r) (totals r') ->
  same_times
    (totals (snd (clock_body args settings node skip clocked r)))
    (totals (snd (clock_body args' settings node' skip clocked r'))).
Proof.
  intros Hivl Hsame.
  pose proof (same_times_entry_totals skip (find_jira_issue node settings)
                (find_jira_issue node' settings) clocked _ _ Hsame)
    as Hentry.
  destruct (clock_body_totals_cases args settings node skip clocked r)
    as [[Hm ->] | [[Hm ->] | (Hm & _ & ->)]];
    destruct (clock_body_totals_cases args' settings node' skip clocked r')
      as [[Hm' ->] | [[Hm' ->] | (Hm' & _ & ->)]];
    rewrite Hivl in Hm; try congruence; try done.
  - by apply same_times_sym, same_times_added_l, same_times_sym.
  - by apply same_times_added_l.
  - apply same_times_added_l, same_times_sym, same_times_added_l.
    by apply same_times_sym.
Qed.

(** X21.  The accounts do not depend on the server or on the flags.  Two
    runs over the same documents, windows and settings that both return,
    whatever servers they talk to, whatever their two flags are and in
    whatever order each takes the tags of a node, end with the same
    invoiced, skipped and cumulative times, overall and day by day.  When
    in addition every node resolves to the same issue in both runs, they
    end with the same time per task.  Only the added time depends on the
    server and the flags. *)
Theorem accounts_independent_of_server
    (load load' : string -> list OutlineNode) (args args' : Args)
    (settings : Settings) (j j' : Jira) :
  intervals args = intervals args' ->
  same_files settings load load' ->
  fst (send_data_to_jira load args settings j) = Ok tt ->
  fst (send_data_to_jira load' args' settings j') = Ok tt ->
  let t := totals (snd (send_data_to_jira load args settings j)) in
  let t' := totals (snd (send_data_to_jira load' args' settings j')) in
  same_times t t'
  /\ (same_resolution settings load load' -> per_task t = per_task t').
Proof.
  intros Hivl Hfiles Hok Hok'. cbv zeta. split.
  - revert Hok Hok'. unfold send_data_to_jira, send_data_loop.
    set (R := fun r r' : Run => same_times (totals r) (totals r')).
    apply (for_each_related_in R); [|by unfold R; cbn [totals]; split_and!].
    intros path r r' Hpath HR.
    apply (for_each_related2 R same_node); [by apply Hfiles| |done].
    clear r r' HR.
    intros n n' r r' (_ & _ & Hp & Hc)%same_node_fields HR.
    unfold node_body. cbv zeta. rewrite Hp, Hc.
    destruct (clock n') as [|c0 cs0]; [done|].
    apply (for_each_related R); [|done]. clear r r' HR.
    intros clocked r r' HR _ _. by apply clock_body_same_times.
  - intros Hres. revert Hok'. unfold send_data_to_jira in *.
    rewrite (send_data_loop_same_resolution load load') by done.
    intros Hok'.
    by destruct (same_load_same_accounts load args args' settings
                   (mkRun no_totals j) (mkRun no_totals j') Hivl)
      as (_ & _ & _ & Htask & _); [by split_and!| | |].
Qed.

(** The task with two tags, both configured: one run takes the tags as
    a, b and sends the entry, the other takes them as b, a in a dry run
    without a server.  The times agree; the time per task does not have
    to, since the runs resolve the task to different issues. *)
Lemma accounts_independent_of_server_witness :
  same_times
    (totals (snd (send_data_to_jira (fun _ => [task_ab])
                    (mkArgs [sample_window] true true) two_issue_settings
                    two_issue_server)))
    (totals (snd (send_data_to_jira (fun _ => [task_ba])
                    (mkArgs [sample_window] false false) two_issue_settings
                    (mkJira ∅ [])))).
Proof.
  refine (proj1 (accounts_independent_of_server (fun _ => [task_ab])
                   (fun _ => [task_ba]) (mkArgs [sample_window] true true)
                   (mkArgs [sample_window] false false) two_issue_settings
                   two_issue_server (mkJira ∅ []) eq_refl _ eq_refl
                   eq_refl)).
  intros path _. constructor; [exact same_node_task | constructor].
Defined.

Lemma already_submitted_false ws t :
  already_submitted ws t = false -> ~ In t (map started ws).
Proof.
  intros Hno Hin. apply in_map_iff in Hin as (w & Ht & Hw).
  assert (already_submitted ws t = true) as Hyes
    by (apply already_submitted_In; eauto).
  congruence.
Qed.

Lemma gate_keeps_starts_distinct key interval description s j :
  distinct_starts j ->
  distinct_starts
    (snd (send_interval_to_jira key interval description true s j)).
Proof.
  intros Hdist.
  destruct (send_interval_to_jira key interval description true s j)
    as [out j'] eqn:Hgate.
  destruct (gate_true_iff_stored_aux key interval description true s j)
    as [Hsent | Hquiet]; rewrite Hgate in *; cbn [fst snd] in *.
  - destruct out as [[]|]; try done.
    destruct (gate_sent _ _ _ _ _ _ _ Hgate)
      as (ws & Hk & Hst & _ & _ & _ & Hdup).
    intros key' ws'. rewrite Hst.
    destruct (decide (key = key')) as [<-|Hne].
    + rewrite lookup_insert_eq. intros [= <-].
      rewrite map_app. apply NoDup_app. split_and!.
      * by apply (Hdist key).
      * intros t Ht [-> | []%elem_of_nil]%elem_of_cons.
        apply list_elem_of_In in Ht. cbn [started] in Ht.
        by apply (already_submitted_false ws (start interval)); [apply Hdup|].
      * apply NoDup_singleton.
    + rewrite lookup_insert_ne by done. apply Hdist.
  - destruct Hquiet as [Hst _]. intros key' ws'. rewrite Hst. apply Hdist.
Qed.

(** X22.  With [query_jira] set a run never puts two work-logs with the same
    start on one issue: if on the server no issue has two work-logs that
    start at the same instant, this is still so after the run, complete or
    stopped by a raise, whatever the files and windows are. *)
Theorem queried_run_keeps_starts_distinct
    (load : string -> list OutlineNode) (args : Args) (settings : Settings)
    (j : Jira) :
  query_jira args = true ->
  distinct_starts j ->
  distinct_starts (server (snd (send_data_to_jira load args settings j))).
Proof.
  intros Hq Hdist. unfold send_data_to_jira, send_data_loop.
  set (I := fun r : Run => distinct_starts (server r)).
  apply (for_each_preserves _ I); [|done].
  intros path r _ Hr. apply (for_each_preserves _ I); [|done]. clear r Hr.
  intros node r _ Hr. unfold node_body. cbv zeta.
  destruct (clock node) as [|c0 cs0]; [done|].
  apply (for_each_preserves _ I); [|done]. clear r Hr.
  intros clocked r _ Hr. unfold I in *.
  destruct (clock_body_server args settings node
              (truthy (properties node !! "jira-skip")) clocked r)
    as [[_ ->] | (m & key & _ & _ & _ & -> & _)]; [done|].
  rewrite Hq. by apply gate_keeps_starts_distinct.
Qed.

Lemma queried_run_keeps_starts_distinct_witness :
  distinct_starts
    (server (snd (send_data_to_jira (fun _ => [sample_review; sample_review])
                    sample_args sample_settings fresh_server))).
Proof.
  apply (queried_run_keeps_starts_distinct
           (fun _ => [sample_review; sample_review]) sample_args
           sample_settings fresh_server eq_refl).
  intros key ws. unfold fresh_server. cbn [worklog_store].
  destruct (decide (key = "PROJ-42")) as [->|Hne].
  - rewrite lookup_singleton_eq. intros [= <-]. constructor.
  - by rewrite lookup_singleton_ne.
Defined.

(** X23.  In a dry run nothing is reported as added: with [send_data] unset
    the added time of every day is zero at the end of the run. *)
Theorem dry_run_adds_no_time (load : string -> list OutlineNode)
    (args : Args) (settings : Settings) (j : Jira) :
  args_send_data_to_jira args = false ->
  forall day,
    day_added_time
      (day_stats (totals (snd (send_data_to_jira load args settings j))) day)
    = 0.
Proof.
  intros Hdry. unfold send_data_to_jira, send_data_loop.
  set (I := fun r : Run =>
              forall day, day_added_time (day_stats (totals r) day) = 0).
  apply (for_each_preserves _ I); [|done].
  intros path r _ Hr. apply (for_each_preserves _ I); [|done]. clear r Hr.
  intros node r _ Hr. unfold node_body. cbv zeta.
  destruct (clock node) as [|c0 cs0]; [done|].
  apply (for_each_preserves _ I); [|done]. clear r Hr.
  intros clocked r _ Hr day. unfold I in *.
  destruct (match_lookup_intervals (intervals args) (clock_start clocked)
              (clock_end clocked)) as [m|] eqn:Hm.
  - rewrite (clock_body_totals _ _ _ _ _ m) by done. cbv zeta.
    assert (day_added_time
              (day_stats
                 (entry_totals (truthy (properties node !! "jira-skip"))
                    (find_jira_issue node settings) clocked (totals r)) day)
            = 0) as Hentry.
    { rewrite day_stats_entry_totals. case_decide; [cbn|]; apply Hr. }
    destruct (truthy _ && negb _); [|done].
    destruct (send_interval_to_jira _ _ _ _ _ _) as [out j'] eqn:Hgate.
    destruct out as [[]|]; cbn [fst]; try done.
    destruct (gate_sent _ _ _ _ _ _ _ Hgate) as (_ & _ & _ & _ & _ & Hs & _).
    congruence.
  - rewrite clock_body_unmatched by done. apply Hr.
Qed.

Lemma dry_run_adds_no_time_witness :
  day_added_time
    (day_stats
       (totals (snd (send_data_to_jira (fun _ => [sample_review])
                       (mkArgs [sample_window] true false) sample_settings
                       fresh_server))) 1)
  = 0.
Proof.
  apply (dry_run_adds_no_time (fun _ => [sample_review])
           (mkArgs [sample_window] true false) sample_settings fresh_server
           eq_refl 1).
Defined.
